(** * SiriDB server: bootstrap and life-cycle core ([src/siri/siri.c])

    A shallow embedding of [siridb_load_databases], [siri_start],
    [siri_free], [close_handlers], [signal_handler] and
    [walk_close_handlers], followed by the properties of the bootstrap
    pipeline and of the shutdown sequence.

    The C functions run in a small monad: global state (the [siri]
    structure and the heap of database instances), the chronological list
    of calls made to the collaborators (libc, libuv, cfgparser, qpack and
    the [siridb_*] loaders), and abortion at a failing [assert].  What
    the collaborators answer is given by an environment of oracles. *)

From Stdlib Require Import ZArith Lia String Ascii List Bool.
From stdpp Require Import base list strings.

Local Open Scope string_scope.
Local Open Scope list_scope.
Local Open Scope Z_scope.

(** ** C strings *)

Module CString.

Definition byte (c : ascii) : Z := Z.of_nat (nat_of_ascii c).

Definition strlen (s : string) : nat := String.length s.

(** [strncmp a b n]: the difference of the first pair of bytes that
    differ among the first [n], the end of a string counting as a zero
    byte; zero when there is none. *)
Fixpoint strncmp (a b : string) (n : nat) {struct n} : Z :=
  match n with
  | O => 0
  | S n' =>
      match a, b with
      | EmptyString, EmptyString => 0
      | EmptyString, String d _ => 0 - byte d
      | String c _, EmptyString => byte c
      | String c a', String d b' =>
          if Ascii.eqb c d then strncmp a' b' n' else byte c - byte d
      end
  end.

Fixpoint strcmp (a b : string) : Z :=
  match a, b with
  | EmptyString, EmptyString => 0
  | EmptyString, String d _ => 0 - byte d
  | String c _, EmptyString => byte c
  | String c a', String d b' =>
      if Ascii.eqb c d then strcmp a' b' else byte c - byte d
  end.

(** [snprintf(buffer, size, ...)] keeps at most [size - 1] characters of
    the formatted text. *)
Definition snprintf (size : nat) (formatted : string) : string :=
  substring 0 (size - 1)%nat formatted.


End CString.
Import CString.

(** [PATH_MAX] of <limits.h> on Linux. *)
Definition PATH_MAX : nat := 4096.

(** [S_ISDIR(m)] of <sys/stat.h>: [(m & S_IFMT) == S_IFDIR]. *)
Definition S_IFMT : Z := 61440.
Definition S_IFDIR : Z := 16384.
Definition S_ISDIR (st_mode : Z) : bool := Z.land st_mode S_IFMT =? S_IFDIR.

(** The mode [0700] given to [mkdir]. *)
Definition mode_0700 : Z := 448.

Definition SIGINT : Z := 2.
Definition SIGSEGV : Z := 11.
Definition SIGTERM : Z := 15.
Definition N_SIGNALS : nat := 3.
Definition signals : list Z := [SIGINT; SIGTERM; SIGSEGV].

(** ** Data model *)

(** Pointers to database instances are indices in the heap. *)
Definition ptr := nat.

(** The fields of [siridb_t] that [siri.c] reads or writes. *)
Record siridb_t := {
  dbname : string;
  dbpath : option string;        (* NULL until set *)
  buffer_path : option string;
  ref : Z;
  start_ts : Z
}.

Definition set_dbpath (v : option string) (db : siridb_t) : siridb_t :=
  {| dbname := dbname db; dbpath := v; buffer_path := buffer_path db;
     ref := ref db; start_ts := start_ts db |}.
Definition set_buffer_path (v : option string) (db : siridb_t) : siridb_t :=
  {| dbname := dbname db; dbpath := dbpath db; buffer_path := v;
     ref := ref db; start_ts := start_ts db |}.
Definition set_start_ts (v : Z) (db : siridb_t) : siridb_t :=
  {| dbname := dbname db; dbpath := dbpath db; buffer_path := buffer_path db;
     ref := ref db; start_ts := v |}.

(** Modelled from the spec: [siridb_incref] is a macro of siri/db/db.h,
    which is not among the sources; the spec has it "increment its
    reference count to reflect registry ownership". *)
Definition incref (db : siridb_t) : siridb_t :=
  {| dbname := dbname db; dbpath := dbpath db; buffer_path := buffer_path db;
     ref := ref db + 1; start_ts := start_ts db |}.

(** cfgparser.h: return codes and typed option values, as far as
    [siri.c] tells them apart. *)
Inductive cfgparser_return_t :=
| CFGPARSER_SUCCESS
| CFGPARSER_ERR (code : nat).

Inductive cfgparser_tp_t :=
| CFGPARSER_TP_INTEGER
| CFGPARSER_TP_STRING
| CFGPARSER_TP_REAL.

(** [cfgparser_option_t]: the type tag and the union it selects. *)
Inductive cfgparser_option_t :=
| OptInteger (integer : Z)
| OptString (string_val : string)
| OptReal (real_text : string).

Definition tp (o : cfgparser_option_t) : cfgparser_tp_t :=
  match o with
  | OptInteger _ => CFGPARSER_TP_INTEGER
  | OptString _ => CFGPARSER_TP_STRING
  | OptReal _ => CFGPARSER_TP_REAL
  end.

(** A parsed configuration and an open unpacker are opaque to [siri.c];
    they are named by the file they were read from. *)
Record cfgparser_t := { cfg_source : string }.
Record qp_unpacker_t := { qp_source : string }.

(** libuv handle types ([uv_handle_type]). *)
Inductive uv_handle_type :=
| UV_UNKNOWN_HANDLE | UV_ASYNC | UV_CHECK | UV_FS_EVENT | UV_FS_POLL
| UV_HANDLE | UV_IDLE | UV_NAMED_PIPE | UV_POLL | UV_PREPARE | UV_PROCESS
| UV_STREAM | UV_TCP | UV_TIMER | UV_TTY | UV_UDP | UV_SIGNAL | UV_FILE.

Definition handle_type_code (t : uv_handle_type) : Z :=
  match t with
  | UV_UNKNOWN_HANDLE => 0 | UV_ASYNC => 1 | UV_CHECK => 2
  | UV_FS_EVENT => 3 | UV_FS_POLL => 4 | UV_HANDLE => 5 | UV_IDLE => 6
  | UV_NAMED_PIPE => 7 | UV_POLL => 8 | UV_PREPARE => 9 | UV_PROCESS => 10
  | UV_STREAM => 11 | UV_TCP => 12 | UV_TIMER => 13 | UV_TTY => 14
  | UV_UDP => 15 | UV_SIGNAL => 16 | UV_FILE => 17
  end.

(** A handle bound to the loop: its identity, its type tag and its
    [data] pointer ([None] is NULL). *)
Record uv_handle_t := {
  hid : nat;
  htype : uv_handle_type;
  data : option nat
}.

Record uv_loop_t := { handles : list uv_handle_t }.

(** The second argument of [uv_close]. *)
Inductive uv_close_cb :=
| CB_NULL
| CB_sirinet_socket_free
| CB_free.

Record siri_cfg_t := {
  default_db_path : string;
  max_open_files : Z
}.

(** The global [siri] structure.  [cfg] is filled in before [siri_start]
    runs; the logger arguments play no part here. *)
Record siri_t := {
  grammar : option unit;
  loop : option uv_loop_t;
  siridb_list : list ptr;
  fh : option Z;
  optimize : bool;
  heartbeat : bool;
  cfg : siri_cfg_t
}.

Record world := {
  siri : siri_t;
  heap : list siridb_t
}.

(** ** Calls to the collaborators *)

Inductive log_level := LOG_DEBUG | LOG_INFO | LOG_WARNING | LOG_ERROR.

Inductive log_arg := ArgS (s : string) | ArgD (d : Z).

Inductive freed := FreeLoop | FreeGrammar.

Inductive event :=
| EvLog (lvl : log_level) (fmt : string) (args : list log_arg)
| EvStat (path : string)
| EvMkdir (path : string) (mode : Z)
| EvOpendir (path : string)
| EvReaddir
| EvClosedir
| EvFstatat (name : string)
| EvAccess (path : string)
| EvCfgparserNew
| EvCfgparserRead (path : string)
| EvCfgparserGetOption (section name : string)
| EvCfgparserFree
| EvQpFromFileUnpacker (path : string)
| EvQpFreeUnpacker (u : option qp_unpacker_t)
| EvSiridbFromUnpacker
| EvLlistAppend (p : ptr)
| EvSiridbIncref (p : ptr)
| EvUsersLoad (p : ptr)
| EvServersLoad (p : ptr)
| EvSeriesLoad (p : ptr)
| EvLoadBuffer (p : ptr)
| EvBufferOpen (p : ptr)
| EvShardsLoad (p : ptr)
| EvPoolsGen (p : ptr)
| EvImap32Walk (p : ptr)
| EvTime
| EvSiriparserInitListener
| EvInitProps
| EvInitAggregates
| EvCompileGrammar
| EvLlistNew
| EvFhNew (max_open : Z)
| EvUvLoopInit
| EvUvSignalInit (h : nat)
| EvUvSignalStart (h : nat) (signum : Z)
| EvBserverInit
| EvClserverInit
| EvOptimizeInit
| EvHeartbeatInit
| EvUvRun
| EvUvLoopClose
| EvFree (what : freed)
| EvFhFree
| EvLlistFreeCb
| EvSiridbFreeCb (p : ptr)
| EvOptimizeCancel
| EvHeartbeatCancel
| EvUvStop
| EvUvWalk
| EvUvClose (h : nat) (cb : uv_close_cb)
| EvUvTimerStop (h : nat)
| EvAssertFail.

#[global] Instance cfgparser_return_eq_dec : EqDecision cfgparser_return_t.
Proof. solve_decision. Defined.
#[global] Instance cfgparser_tp_eq_dec : EqDecision cfgparser_tp_t.
Proof. solve_decision. Defined.
#[global] Instance uv_handle_type_eq_dec : EqDecision uv_handle_type.
Proof. solve_decision. Defined.
#[global] Instance uv_close_cb_eq_dec : EqDecision uv_close_cb.
Proof. solve_decision. Defined.
#[global] Instance log_level_eq_dec : EqDecision log_level.
Proof. solve_decision. Defined.
#[global] Instance log_arg_eq_dec : EqDecision log_arg.
Proof. solve_decision. Defined.
#[global] Instance freed_eq_dec : EqDecision freed.
Proof. solve_decision. Defined.
#[global] Instance qp_unpacker_eq_dec : EqDecision qp_unpacker_t.
Proof. solve_decision. Defined.
#[global] Instance event_eq_dec : EqDecision event.
Proof. solve_decision. Defined.

(** ** The monad *)

Inductive outcome (A : Type) :=
| Done (a : A)
| Aborted.
Arguments Done {A} a.
Arguments Aborted {A}.

Record run (A : Type) := Run {
  result : outcome A;
  final : world;
  events : list event
}.
Arguments Run {A} _ _ _.
Arguments result {A} _.
Arguments final {A} _.
Arguments events {A} _.

Definition M (A : Type) : Type := world -> run A.

Definition ret {A} (a : A) : M A := fun w => Run (Done a) w [].

Definition bind {A B} (c : M A) (k : A -> M B) : M B :=
  fun w =>
    match c w with
    | Run (Done a) w1 evs1 =>
        match k a w1 with
        | Run res w2 evs2 => Run res w2 (evs1 ++ evs2)
        end
    | Run Aborted w1 evs1 => Run Aborted w1 evs1
    end.

Declare Scope siri_scope.
Delimit Scope siri_scope with siri.
Notation "x <- c ;; k" := (bind c (fun x => k))
  (at level 100, c at next level, right associativity) : siri_scope.
Notation "c ;;; k" := (bind c (fun _ => k))
  (at level 100, right associativity) : siri_scope.
Local Open Scope siri_scope.

Definition call (e : event) : M unit := fun w => Run (Done tt) w [e].
Definition get_siri : M siri_t := fun w => Run (Done (siri w)) w [].
Definition put_siri (s : siri_t) : M unit :=
  fun w => Run (Done tt) {| siri := s; heap := heap w |} [].
Definition get_heap : M (list siridb_t) := fun w => Run (Done (heap w)) w [].
Definition put_heap (h : list siridb_t) : M unit :=
  fun w => Run (Done tt) {| siri := siri w; heap := h |} [].
Definition abort {A} : M A := fun w => Run Aborted w [].

(** ** The environment: what the collaborators answer *)

Record env := {
  (* libc *)
  stat_ok : string -> bool;                      (* stat(path, &st) != -1 *)
  mkdir_ok : string -> Z -> bool;                (* mkdir(path, mode) != -1 *)
  opendir : string -> option (list string);      (* NULL, or the d_name's readdir yields *)
  fstatat : string -> option Z;                  (* a negative result, or st_mode *)
  access_R_OK : string -> bool;                  (* access(path, R_OK) != -1 *)
  time : Z;                                      (* time(NULL): one reading serves a whole run *)
  (* cfgparser *)
  cfgparser_read : string -> cfgparser_return_t;
  cfgparser_errmsg : cfgparser_return_t -> string;
  cfgparser_get_option :
    cfgparser_t -> string -> string -> cfgparser_return_t * cfgparser_option_t;
  (* qpack and the database loaders *)
  qp_from_file_unpacker : string -> option qp_unpacker_t;
  siridb_from_unpacker : qp_unpacker_t -> string + siridb_t;  (* err_msg, or the new instance *)
  siridb_users_load : siridb_t -> Z;
  siridb_servers_load : siridb_t -> Z;
  siridb_series_load : siridb_t -> Z;
  siridb_load_buffer : siridb_t -> Z;
  siridb_buffer_open : siridb_t -> Z;
  siridb_shards_load : siridb_t -> Z;
  (* network listeners and periodic tasks: the result code, and the
     handles (type, data) they bind to the loop *)
  sirinet_bserver_init : Z * list (uv_handle_type * option nat);
  sirinet_clserver_init : Z * list (uv_handle_type * option nat);
  siri_optimize_init : list (uv_handle_type * option nat);
  siri_heartbeat_init : list (uv_handle_type * option nat);
  uv_loop_close : Z
}.

(** ** The program *)

Section Program.

Context (E : env).

Definition log (lvl : log_level) (fmt : string) (args : list log_arg) : M unit :=
  call (EvLog lvl fmt args).

(** [*p], and [*p = f( *p )]; a pointer outside the heap is a fault. *)
Definition read_siridb (p : ptr) : M siridb_t :=
  h <- get_heap ;;
  match h !! p with
  | Some db => ret db
  | None => abort
  end.

Definition modify_siridb (f : siridb_t -> siridb_t) (p : ptr) : M unit :=
  h <- get_heap ;; put_heap (alter f p h).

(** Lines 126-130: the test on [dbpath->d_name]. *)
Definition skip_name (d_name : string) : bool :=
  ((strlen d_name =? 1)%nat && (strcmp d_name "." =? 0))
  || ((2 <=? strlen d_name)%nat
      && ((strncmp d_name ".." 2 =? 0) || (strncmp d_name "__" 2 =? 0))).

Definition conf_path (base d_name : string) : string :=
  snprintf PATH_MAX (base +:+ d_name +:+ "/database.conf").
Definition dat_path (base d_name : string) : string :=
  snprintf PATH_MAX (base +:+ d_name +:+ "/database.dat").
Definition db_path (base d_name : string) : string :=
  snprintf PATH_MAX (base +:+ d_name +:+ "/").

(** One of the six loaders of lines 221-267: [if (load(siridb))] logs,
    closes the directory and returns 1. *)
Definition load_stage (ev : ptr -> event) (load : siridb_t -> Z)
    (msg : string) (p : ptr) (k : M (option Z)) : M (option Z) :=
  db <- read_siridb p ;;
  call (ev p) ;;;
  if load db =? 0 then k
  else
    log LOG_ERROR msg [ArgS (dbname db)] ;;;
    call EvClosedir ;;;
    ret (Some 1).

(** Modelled from the spec: [llist_append] (llist/llist.c) is not among
    the sources; the spec's [append(instance)] "adds to the ordered
    collection". *)
Definition llist_append (p : ptr) (s : siri_t) : siri_t :=
  {| grammar := grammar s; loop := loop s;
     siridb_list := siridb_list s ++ [p]; fh := fh s;
     optimize := optimize s; heartbeat := heartbeat s; cfg := cfg s |}.

(** Lines 221-281: the six loaders in turn, then pools, series
    properties and the start time.  [None] is the end of the loop body,
    [Some rc] is [return rc]. *)
Definition siridb_load_databases_stages (p : ptr) : M (option Z) :=
  load_stage EvUsersLoad (siridb_users_load E)
    "Could not read users for database '%s'" p (
  load_stage EvServersLoad (siridb_servers_load E)
    "Could not read servers for database '%s'" p (
  load_stage EvSeriesLoad (siridb_series_load E)
    "Could not read series for database '%s'" p (
  load_stage EvLoadBuffer (siridb_load_buffer E)
    "Could not read buffer for database '%s'" p (
  load_stage EvBufferOpen (siridb_buffer_open E)
    "Could not open buffer for database '%s'" p (
  load_stage EvShardsLoad (siridb_shards_load E)
    "Could not read shards for database '%s'" p (
    call (EvPoolsGen p) ;;;
    log LOG_INFO "Updating series properties" [] ;;;
    call (EvImap32Walk p) ;;;
    call EvTime ;;;
    modify_siridb (set_start_ts (time E mod 2 ^ 32)) p ;;;
    db <- read_siridb p ;;
    log LOG_INFO "Finished loading database: '%s'" [ArgS (dbname db)] ;;;
    ret None)))))).

(** Lines 195-219, then the stages: the instance [p] is in
    [siridb_list] already. *)
Definition siridb_load_databases_registered
    (base d_name : string) (cfgparser : cfgparser_t) (p : ptr) : M (option Z) :=
  db <- read_siridb p ;;
  log LOG_INFO "Start loading database: '%s'" [ArgS (dbname db)] ;;;
  (* set dbpath *)
  let buffer := db_path base d_name in
  modify_siridb (set_dbpath (Some buffer)) p ;;;
  (* read buffer_path from database.conf *)
  call (EvCfgparserGetOption "buffer" "buffer_path") ;;;
  let '(rc, option) := cfgparser_get_option E cfgparser "buffer" "buffer_path" in
  db <- read_siridb p ;;
  modify_siridb
    (set_buffer_path
       (if bool_decide (rc = CFGPARSER_SUCCESS)
           && bool_decide (tp option = CFGPARSER_TP_STRING)
        then match option with
             | OptString s => Some s
             | _ => None
             end
        else dbpath db)) p ;;;
  (* free cfgparser *)
  call EvCfgparserFree ;;;
  siridb_load_databases_stages p.

(** Lines 150-193: configuration and metadata, then registration. *)
Definition siridb_load_databases_pipeline
    (base d_name buffer : string) : M (option Z) :=
  call EvCfgparserNew ;;;
  call (EvCfgparserRead buffer) ;;;
  let rc := cfgparser_read E buffer in
  if negb (bool_decide (rc = CFGPARSER_SUCCESS)) then
    log LOG_ERROR "Could not read '%s': %s"
      [ArgS buffer; ArgS (cfgparser_errmsg E rc)] ;;;
    call EvClosedir ;;;
    call EvCfgparserFree ;;;
    ret (Some 1)
  else
    let cfgparser := {| cfg_source := buffer |} in
    let buffer := dat_path base d_name in
    call (EvQpFromFileUnpacker buffer) ;;;
    match qp_from_file_unpacker E buffer with
    | None =>
        log LOG_ERROR "Could not read '%s'" [ArgS buffer] ;;;
        call EvClosedir ;;;
        call (EvQpFreeUnpacker None) ;;;
        call EvCfgparserFree ;;;
        ret (Some 1)
    | Some unpacker =>
        call EvSiridbFromUnpacker ;;;
        match siridb_from_unpacker E unpacker with
        | inl err_msg =>
            log LOG_ERROR "Could not read '%s': %s"
              [ArgS buffer; ArgS err_msg] ;;;
            call EvClosedir ;;;
            call (EvQpFreeUnpacker (Some unpacker)) ;;;
            call EvCfgparserFree ;;;
            ret (Some 1)
        | inr siridb =>
            (* the instance siridb_from_unpacker allocated *)
            h <- get_heap ;;
            let p := length h in
            put_heap (h ++ [siridb]) ;;;
            (* append SiriDB to siridb_list and increment reference count *)
            s <- get_siri ;;
            call (EvLlistAppend p) ;;;
            put_siri (llist_append p s) ;;;
            call (EvSiridbIncref p) ;;;
            modify_siridb incref p ;;;
            call (EvQpFreeUnpacker (Some unpacker)) ;;;
            siridb_load_databases_registered base d_name cfgparser p
        end
    end.

(** Lines 124-148, then the pipeline: the body of the [while] loop for
    one directory entry. *)
Definition siridb_load_databases_entry (d_name : string) : M (option Z) :=
  if skip_name d_name then ret None
  else
    call (EvFstatat d_name) ;;;
    match fstatat E d_name with
    | None => ret None
    | Some st_mode =>
        if negb (S_ISDIR st_mode) then ret None
        else
          s <- get_siri ;;
          let base := default_db_path (cfg s) in
          let buffer := conf_path base d_name in
          call (EvAccess buffer) ;;;
          if negb (access_R_OK E buffer) then ret None
          else siridb_load_databases_pipeline base d_name buffer
    end.

(** Lines 122-285: [while ((dbpath = readdir(...)) != NULL)], on what is
    left of the directory stream. *)
Fixpoint siridb_load_databases_loop (stream : list string) : M Z :=
  call EvReaddir ;;;
  match stream with
  | [] => call EvClosedir ;;; ret 0
  | d_name :: rest =>
      r <- siridb_load_databases_entry d_name ;;
      match r with
      | Some rc => ret rc
      | None => siridb_load_databases_loop rest
      end
  end.

Definition siridb_load_databases : M Z :=
  s <- get_siri ;;
  let path := default_db_path (cfg s) in
  call (EvStat path) ;;;
  created <-
    (if negb (stat_ok E path) then
       log LOG_WARNING "Database directory not found, creating directory '%s'."
         [ArgS path] ;;;
       call (EvMkdir path mode_0700) ;;;
       if negb (mkdir_ok E path mode_0700) then
         log LOG_ERROR "Cannot create directory '%s'." [ArgS path] ;;;
         ret (Some 1)
       else ret None
     else ret None) ;;
  match created with
  | Some rc => ret rc
  | None =>
      call (EvOpendir path) ;;;
      match opendir E path with
      | None =>
          log LOG_ERROR "Cannot open database directory '%s'." [ArgS path] ;;;
          ret 1
      | Some stream => siridb_load_databases_loop stream
      end
  end.

(** *** libuv, as far as the shutdown needs it *)

Definition with_loop {A} (k : uv_loop_t -> M A) : M A :=
  s <- get_siri ;;
  match loop s with
  | Some l => k l
  | None => abort
  end.

Definition set_loop (l : option uv_loop_t) : M unit :=
  s <- get_siri ;;
  put_siri {| grammar := grammar s; loop := l;
              siridb_list := siridb_list s; fh := fh s;
              optimize := optimize s; heartbeat := heartbeat s;
              cfg := cfg s |}.

(** A new handle on the loop; its identity is its rank. *)
Definition uv_bind (td : uv_handle_type * option nat) : M nat :=
  with_loop (fun l =>
    let h := {| hid := length (handles l); htype := fst td; data := snd td |} in
    set_loop (Some {| handles := handles l ++ [h] |}) ;;;
    ret (hid h)).

Fixpoint uv_bind_all (tds : list (uv_handle_type * option nat)) : M unit :=
  match tds with
  | [] => ret tt
  | td :: rest => uv_bind td ;;; uv_bind_all rest
  end.

Definition uv_close (handle : uv_handle_t) (cb : uv_close_cb) : M unit :=
  call (EvUvClose (hid handle) cb).

Definition uv_run : M unit := call EvUvRun.

(** Lines 393-418.  A failing [assert] ends the run (a build without
    NDEBUG). *)
Definition walk_close_handlers (handle : uv_handle_t) : M unit :=
  match htype handle with
  | UV_SIGNAL => uv_close handle CB_NULL
  | UV_TCP =>
      uv_close handle
        (match data handle with
         | None => CB_NULL
         | Some _ => CB_sirinet_socket_free
         end)
  | UV_TIMER =>
      call (EvUvTimerStop (hid handle)) ;;;
      uv_close handle CB_NULL
  | UV_ASYNC => uv_close handle CB_free
  | t =>
      log LOG_ERROR "Oh oh, we need to implement type %d"
        [ArgD (handle_type_code t)] ;;;
      call EvAssertFail ;;;
      abort
  end.

(** [uv_walk(loop, walk_cb, arg)]: the callback on every handle of the
    loop, in turn. *)
Fixpoint uv_walk_handles (walk_cb : uv_handle_t -> M unit)
    (hs : list uv_handle_t) : M unit :=
  match hs with
  | [] => ret tt
  | h :: rest => walk_cb h ;;; uv_walk_handles walk_cb rest
  end.

Definition uv_walk (walk_cb : uv_handle_t -> M unit) : M unit :=
  with_loop (fun l => call EvUvWalk ;;; uv_walk_handles walk_cb (handles l)).

(** Lines 369-376. *)
Definition close_handlers : M unit :=
  (* close open handlers *)
  uv_walk walk_close_handlers ;;;
  (* run the loop once more so call-backs on uv_close() can run *)
  uv_run.

(** Lines 378-391. *)
Definition signal_handler (signum : Z) : M unit :=
  log LOG_DEBUG "Asked SiriDB Server to stop (%d)" [ArgD signum] ;;;
  call EvOptimizeCancel ;;;
  call EvHeartbeatCancel ;;;
  with_loop (fun _ => call EvUvStop) ;;;
  close_handlers.

Fixpoint bind_signals (sigs : list Z) : M unit :=
  match sigs with
  | [] => ret tt
  | signum :: rest =>
      h <- uv_bind (UV_SIGNAL, None) ;;
      call (EvUvSignalInit h) ;;;
      call (EvUvSignalStart h signum) ;;;
      bind_signals rest
  end.

(** Lines 315-349: the event loop, its signals, the two listeners, the
    two periodic tasks, and the run. *)
Definition siri_start_reactor : M Z :=
  (* initialize the default event loop *)
  set_loop (Some {| handles := [] |}) ;;;
  call EvUvLoopInit ;;;
  (* bind signals to the event loop *)
  bind_signals signals ;;;
  (* initialize the back-end server *)
  call EvBserverInit ;;;
  uv_bind_all (snd (sirinet_bserver_init E)) ;;;
  let rc := fst (sirinet_bserver_init E) in
  if negb (rc =? 0) then close_handlers ;;; ret rc
  else
    (* initialize the client server *)
    call EvClserverInit ;;;
    uv_bind_all (snd (sirinet_clserver_init E)) ;;;
    let rc := fst (sirinet_clserver_init E) in
    if negb (rc =? 0) then close_handlers ;;; ret rc
    else
      (* initialize optimize task (bind siri.optimize) *)
      call EvOptimizeInit ;;;
      uv_bind_all (siri_optimize_init E) ;;;
      (* initialize heart-beat task (bind siri.heartbeat) *)
      call EvHeartbeatInit ;;;
      uv_bind_all (siri_heartbeat_init E) ;;;
      s <- get_siri ;;
      put_siri {| grammar := grammar s; loop := loop s;
                  siridb_list := siridb_list s; fh := fh s;
                  optimize := true; heartbeat := true; cfg := cfg s |} ;;;
      (* start the event loop *)
      uv_run ;;;
      ret 0.

(** Lines 288-350. *)
Definition siri_start : M Z :=
  call EvSiriparserInitListener ;;;
  call EvInitProps ;;;
  call EvInitAggregates ;;;
  call EvCompileGrammar ;;;
  call EvLlistNew ;;;
  s <- get_siri ;;
  call (EvFhNew (max_open_files (cfg s))) ;;;
  put_siri {| grammar := Some tt; loop := loop s; siridb_list := [];
              fh := Some (max_open_files (cfg s));
              optimize := optimize s; heartbeat := heartbeat s;
              cfg := cfg s |} ;;;
  (* load databases *)
  rc <- siridb_load_databases ;;
  if negb (rc =? 0) then ret rc (* something went wrong *)
  else siri_start_reactor.

(** Modelled from the spec: [llist_free_cb] (llist/llist.c) and
    [siridb_free_cb] (siri/db/db.c) are not among the sources.  The
    spec's [teardown_all(destructor)] "unconditionally destroys every
    member via destructor, ignoring outstanding logical reference
    counts". *)
Fixpoint llist_walk_free (cb : ptr -> M unit) (l : list ptr) : M unit :=
  match l with
  | [] => ret tt
  | p :: rest => cb p ;;; llist_walk_free cb rest
  end.

Definition llist_free_cb (l : list ptr) (cb : ptr -> M unit) : M unit :=
  call EvLlistFreeCb ;;; llist_walk_free cb l.

Definition siridb_free_cb (p : ptr) : M unit := call (EvSiridbFreeCb p).

(** Lines 352-367. *)
Definition siri_free : M unit :=
  s <- get_siri ;;
  (match loop s with
   | Some _ =>
       call EvUvLoopClose ;;;
       let rc := uv_loop_close E in
       if negb (rc =? 0) then
         log LOG_ERROR "Error occurred while closing the event loop: %d"
           [ArgD rc]
       else ret tt
   | None => ret tt
   end) ;;;
  call (EvFree FreeLoop) ;;;
  call (EvFree FreeGrammar) ;;;
  call EvFhFree ;;;
  llist_free_cb (siridb_list s) siridb_free_cb.

End Program.

(** ** Vocabulary of the properties *)

(** *** Projections of a trace *)

(** The files handed to [cfgparser_read] (line 152), the first step of
    the load pipeline: one per entry passed to the loader. *)
Definition loader_calls (evs : list event) : list string :=
  omap (fun e => match e with EvCfgparserRead p => Some p | _ => None end) evs.

Definition occurrences (e : event) (evs : list event) : nat :=
  count_occ event_eq_dec evs e.

(** The entries [readdir] has handed out: as many as there were calls. *)
Definition entries_read (evs : list event) (stream : list string) : list string :=
  firstn (occurrences EvReaddir evs) stream.

(** The calls [siridb_load_databases] can make. *)
Definition is_bootstrap_event (e : event) : bool :=
  match e with
  | EvLog _ _ _ | EvStat _ | EvMkdir _ _ | EvOpendir _ | EvReaddir
  | EvClosedir | EvFstatat _ | EvAccess _ | EvCfgparserNew
  | EvCfgparserRead _ | EvCfgparserGetOption _ _ | EvCfgparserFree
  | EvQpFromFileUnpacker _ | EvQpFreeUnpacker _ | EvSiridbFromUnpacker
  | EvLlistAppend _ | EvSiridbIncref _ | EvUsersLoad _ | EvServersLoad _
  | EvSeriesLoad _ | EvLoadBuffer _ | EvBufferOpen _ | EvShardsLoad _
  | EvPoolsGen _ | EvImap32Walk _ | EvTime => true
  | _ => false
  end.

Definition is_error_log (e : event) : bool :=
  match e with
  | EvLog LOG_ERROR _ _ => true
  | _ => false
  end.

Definition is_cleanup (e : event) : bool :=
  match e with
  | EvClosedir | EvCfgparserFree | EvQpFreeUnpacker _ => true
  | _ => false
  end.

(** An error is logged, and only clean-up calls follow it. *)
Fixpoint error_then_cleanup (evs : list event) : bool :=
  match evs with
  | [] => false
  | e :: rest =>
      (is_error_log e && forallb is_cleanup rest) || error_then_cleanup rest
  end.

(** The handles [uv_close] was called on, in order. *)
Definition closed_ids (evs : list event) : list nat :=
  omap (fun e => match e with EvUvClose h _ => Some h | _ => None end) evs.

Definition is_close_event (e : event) : bool :=
  match e with
  | EvUvClose _ _ | EvUvTimerStop _ => true
  | _ => false
  end.

(** The four handle types [walk_close_handlers] has a case for. *)
Definition known_handle (h : uv_handle_t) : bool :=
  match htype h with
  | UV_SIGNAL | UV_TCP | UV_TIMER | UV_ASYNC => true
  | _ => false
  end.

(** The path fits the [PATH_MAX] buffer it is formatted into. *)
Definition fits (formatted : string) : Prop :=
  (String.length formatted < PATH_MAX)%nat.

(** *** What the oracles decide for one directory entry *)

Section Vocabulary.

Context (E : env).

(** Lines 197-216 on an instance. *)
Definition configured (base d_name : string) (cfgparser : cfgparser_t)
    (db : siridb_t) : siridb_t :=
  let db1 := set_dbpath (Some (db_path base d_name)) db in
  set_buffer_path
    (match cfgparser_get_option E cfgparser "buffer" "buffer_path" with
     | (CFGPARSER_SUCCESS, OptString s) => Some s
     | _ => dbpath db1
     end) db1.

(** All six loaders of lines 221-267 return zero. *)
Definition loaders_ok (db : siridb_t) : bool :=
  (siridb_users_load E db =? 0) && (siridb_servers_load E db =? 0)
  && (siridb_series_load E db =? 0) && (siridb_load_buffer E db =? 0)
  && (siridb_buffer_open E db =? 0) && (siridb_shards_load E db =? 0).

Definition finished (db : siridb_t) : siridb_t :=
  if loaders_ok db then set_start_ts (time E mod 2 ^ 32) db else db.

Definition is_directory (d_name : string) : bool :=
  match fstatat E d_name with
  | Some st_mode => S_ISDIR st_mode
  | None => false
  end.

(** The entry reaches line 150. *)
Definition candidate (base d_name : string) : bool :=
  negb (skip_name d_name) && is_directory d_name
  && access_R_OK E (conf_path base d_name).

(** Configuration and metadata both parse (lines 150-187). *)
Definition parse_metadata (base d_name : string) : option siridb_t :=
  if bool_decide (cfgparser_read E (conf_path base d_name) = CFGPARSER_SUCCESS)
  then match qp_from_file_unpacker E (dat_path base d_name) with
       | Some unpacker =>
           match siridb_from_unpacker E unpacker with
           | inr db => Some db
           | inl _ => None
           end
       | None => None
       end
  else None.

(** The instance as it stands when the loaders start (line 221). *)
Definition at_stages (base d_name : string) (db : siridb_t) : siridb_t :=
  configured base d_name {| cfg_source := conf_path base d_name |} (incref db).

Inductive verdict :=
| Skipped                                   (* not a candidate *)
| Rejected                                  (* failed before line 190 *)
| Registered (db : siridb_t) (ok : bool).   (* appended; the loaders' result *)

Definition verdict_of (base d_name : string) : verdict :=
  if candidate base d_name then
    match parse_metadata base d_name with
    | None => Rejected
    | Some db =>
        let db1 := at_stages base d_name db in
        Registered (finished db1) (loaders_ok db1)
    end
  else Skipped.

Definition entry_result (v : verdict) : option Z :=
  match v with
  | Skipped => None
  | Rejected => Some 1
  | Registered _ ok => if ok then None else Some 1
  end.

Definition fails (base d_name : string) : bool :=
  match entry_result (verdict_of base d_name) with
  | Some _ => true
  | None => false
  end.

Definition world_after (v : verdict) (w : world) : world :=
  match v with
  | Skipped | Rejected => w
  | Registered db _ =>
      {| siri := llist_append (length (heap w)) (siri w);
         heap := heap w ++ [db] |}
  end.

(** The entries the loop body runs on: up to the first that fails. *)
Fixpoint visited (base : string) (stream : list string) : list string :=
  match stream with
  | [] => []
  | d_name :: rest =>
      d_name :: (if fails base d_name then [] else visited base rest)
  end.

Fixpoint world_after_all (base : string) (stream : list string) (w : world) : world :=
  match stream with
  | [] => w
  | d_name :: rest =>
      let w1 := world_after (verdict_of base d_name) w in
      if fails base d_name then w1 else world_after_all base rest w1
  end.

End Vocabulary.

(** *** The call as a whole *)

Section CallVocabulary.

Context (E : env).

(** The calls of lines 103-113 when they do not return. *)
Definition preamble (base : string) : list event :=
  EvStat base
  :: (if stat_ok E base then []
      else [EvLog LOG_WARNING
              "Database directory not found, creating directory '%s'."
              [ArgS base];
            EvMkdir base mode_0700]).

(** The base path exists, or could be created. *)
Definition base_ready (base : string) : bool :=
  stat_ok E base || mkdir_ok E base mode_0700.

End CallVocabulary.

(** The world in which [siri_start] calls [siridb_load_databases]. *)
Definition started (w : world) : world :=
  {| siri := {| grammar := Some tt; loop := loop (siri w); siridb_list := [];
                fh := Some (max_open_files (cfg (siri w)));
                optimize := optimize (siri w); heartbeat := heartbeat (siri w);
                cfg := cfg (siri w) |};
     heap := heap w |}.

Definition startup_calls (w : world) : list event :=
  [EvSiriparserInitListener; EvInitProps; EvInitAggregates; EvCompileGrammar;
   EvLlistNew; EvFhNew (max_open_files (cfg (siri w)))].

(** Calls that touch the event loop, the listeners or the periodic tasks. *)
Definition is_reactor_event (e : event) : bool :=
  match e with
  | EvUvLoopInit | EvUvSignalInit _ | EvUvSignalStart _ _ | EvBserverInit
  | EvClserverInit | EvOptimizeInit | EvHeartbeatInit | EvUvRun
  | EvUvLoopClose | EvOptimizeCancel | EvHeartbeatCancel | EvUvStop
  | EvUvWalk | EvUvClose _ _ | EvUvTimerStop _ | EvAssertFail => true
  | _ => false
  end.

(** *** Statements of the specification that the code does not meet *)

(** The entry's database.conf was handed to the loader. *)
Definition passed_to_loader (evs : list event) (base d_name : string) : Prop :=
  In (base +:+ d_name +:+ "/database.conf") (loader_calls evs).

Definition passed_to_loaderb (evs : list event) (base d_name : string) : bool :=
  existsb (String.eqb (base +:+ d_name +:+ "/database.conf")) (loader_calls evs).

(** "An entry is passed to the loader exactly when it is a directory, its
    name is not "." and not "..", its name does not start with "__", and it
    contains a readable database.conf": checked on every entry of a
    stream. *)
Definition name_filter_as_stated (E : env) (w : world) (stream : list string) : bool :=
  let base := default_db_path (cfg (siri w)) in
  let evs := events (siridb_load_databases E w) in
  forallb
    (fun d_name =>
       Bool.eqb (passed_to_loaderb evs base d_name)
         (is_directory E d_name
          && negb (String.eqb d_name ".") && negb (String.eqb d_name "..")
          && negb (String.prefix "__" d_name)
          && access_R_OK E (base +:+ d_name +:+ "/database.conf")))
    stream.

(** "For every pipeline stage that fails, no Instance is appended to the
    Registry": checked on the loop body for one entry. *)
Definition no_partial_instance_as_stated (E : env) (w : world) (d_name : string) : bool :=
  let r := siridb_load_databases_entry E d_name w in
  match result r with
  | Done (Some _) =>
      bool_decide (siridb_list (siri (final r)) = siridb_list (siri w))
  | _ => true
  end.

(** "If a listener fails to initialise, siri_start runs the shutdown
    sequence, cancelling both periodic tasks and closing every resource
    with a drain pass, and returns the listener's error code": checked
    for the back-end listener, the databases being loaded. *)
Definition listener_failure_as_stated (E : env) (w : world) : bool :=
  let r := siri_start E w in
  let rc := fst (sirinet_bserver_init E) in
  implb
    (match result (siridb_load_databases E (started w)) with
     | Done 0 => negb (rc =? 0)
     | _ => false
     end)
    (match result r with
     | Done rc' => rc' =? rc
     | Aborted => false
     end
     && (occurrences EvOptimizeCancel (events r) =? 1)%nat
     && (occurrences EvHeartbeatCancel (events r) =? 1)%nat
     && (occurrences EvUvWalk (events r) =? 1)%nat
     && (occurrences EvUvRun (events r) =? 1)%nat).

(** *** Concrete environments *)

Definition fresh_db (name : string) : siridb_t :=
  {| dbname := name; dbpath := None; buffer_path := None;
     ref := 0; start_ts := 0 |}.

(** A data directory "/var/lib/siridb/" holding two databases among other
    entries.  [present] says whether the directory exists, [users_rc] is
    what [siridb_users_load] returns for "dbtest", [bserver_rc] what
    [sirinet_bserver_init] returns. *)
Definition demo_env (present : bool) (users_rc bserver_rc : Z) : env := {|
  stat_ok := fun _ => present;
  mkdir_ok := fun _ _ => true;
  opendir := fun _ =>
    Some (if present
          then ["."; ".."; "__backup"; "..backup"; ".hidden"; "notes.txt";
                "empty"; "dbtest"; "later"]
          else ["."; ".."]);
  fstatat := fun n => if String.eqb n "notes.txt" then Some 33188 else Some 16877;
  access_R_OK := fun p =>
    String.eqb p "/var/lib/siridb/dbtest/database.conf"
    || String.eqb p "/var/lib/siridb/..backup/database.conf"
    || String.eqb p "/var/lib/siridb/.hidden/database.conf"
    || String.eqb p "/var/lib/siridb/later/database.conf";
  time := 1477000000;
  cfgparser_read := fun _ => CFGPARSER_SUCCESS;
  cfgparser_errmsg := fun _ => "error";
  cfgparser_get_option := fun c _ _ =>
    if String.eqb (cfg_source c) "/var/lib/siridb/dbtest/database.conf"
    then (CFGPARSER_SUCCESS, OptString "/mnt/ssd/dbtest/")
    else (CFGPARSER_ERR 5, OptInteger 0);
  qp_from_file_unpacker := fun p => Some {| qp_source := p |};
  siridb_from_unpacker := fun u => inr (fresh_db (qp_source u));
  siridb_users_load := fun db =>
    if String.eqb (dbname db) "/var/lib/siridb/dbtest/database.dat"
    then users_rc else 0;
  siridb_servers_load := fun _ => 0;
  siridb_series_load := fun _ => 0;
  siridb_load_buffer := fun _ => 0;
  siridb_buffer_open := fun _ => 0;
  siridb_shards_load := fun _ => 0;
  sirinet_bserver_init := (bserver_rc, if bserver_rc =? 0 then [(UV_TCP, None)] else []);
  sirinet_clserver_init := (0, [(UV_TCP, None)]);
  siri_optimize_init := [(UV_TIMER, None)];
  siri_heartbeat_init := [(UV_TIMER, None)];
  uv_loop_close := 0
|}.

Definition demo_world : world := {|
  siri := {| grammar := None; loop := None; siridb_list := []; fh := None;
             optimize := false; heartbeat := false;
             cfg := {| default_db_path := "/var/lib/siridb/";
                       max_open_files := 512 |} |};
  heap := []
|}.

(** A running loop: three signal watchers, a listener, a client
    connection with its payload, two timers and an async handle. *)
Definition demo_loop : uv_loop_t := {|
  handles := [
    {| hid := 0; htype := UV_SIGNAL; data := None |};
    {| hid := 1; htype := UV_SIGNAL; data := None |};
    {| hid := 2; htype := UV_SIGNAL; data := None |};
    {| hid := 3; htype := UV_TCP; data := None |};
    {| hid := 4; htype := UV_TCP; data := Some 7%nat |};
    {| hid := 5; htype := UV_TIMER; data := None |};
    {| hid := 6; htype := UV_TIMER; data := None |};
    {| hid := 7; htype := UV_ASYNC; data := None |}
  ]
|}.

Definition running_world : world := {|
  siri := {| grammar := Some tt; loop := Some demo_loop; siridb_list := [0%nat];
             fh := Some 512; optimize := true; heartbeat := true;
             cfg := {| default_db_path := "/var/lib/siridb/";
                       max_open_files := 512 |} |};
  heap := [{| dbname := "dbtest"; dbpath := Some "/var/lib/siridb/dbtest/";
              buffer_path := Some "/var/lib/siridb/dbtest/";
              ref := 3; start_ts := 1477000000 |}]
|}.

(** *** Handles on the loop *)

(** The handles [uv_bind_all] adds when the loop already holds [n]. *)
Fixpoint new_handles (n : nat) (tds : list (uv_handle_type * option nat))
    : list uv_handle_t :=
  match tds with
  | [] => []
  | td :: rest =>
      {| hid := n; htype := fst td; data := snd td |} :: new_handles (S n) rest
  end.

Definition with_handles (hs : list uv_handle_t) (w : world) : world :=
  {| siri := {| grammar := grammar (siri w);
                loop := Some {| handles := hs |};
                siridb_list := siridb_list (siri w); fh := fh (siri w);
                optimize := optimize (siri w); heartbeat := heartbeat (siri w);
                cfg := cfg (siri w) |};
     heap := heap w |}.

Definition known_type (td : uv_handle_type * option nat) : bool :=
  match fst td with
  | UV_SIGNAL | UV_TCP | UV_TIMER | UV_ASYNC => true
  | _ => false
  end.

(** The listener whose initialisation fails first, if any: its result
    code and the handles bound to the loop by then, besides the signal
    watchers. *)
Definition failing_listener (E : env)
    : option (Z * list (uv_handle_type * option nat)) :=
  if negb (fst (sirinet_bserver_init E) =? 0)
  then Some (fst (sirinet_bserver_init E), snd (sirinet_bserver_init E))
  else if negb (fst (sirinet_clserver_init E) =? 0)
  then Some (fst (sirinet_clserver_init E),
             snd (sirinet_bserver_init E) ++ snd (sirinet_clserver_init E))
  else None.

(** The three signal watchers [siri_start] binds. *)
Definition signal_handles : list uv_handle_t :=
  [{| hid := 0; htype := UV_SIGNAL; data := None |};
   {| hid := 1; htype := UV_SIGNAL; data := None |};
   {| hid := 2; htype := UV_SIGNAL; data := None |}].

(** ** The logger set-up ([siri_setup_logger], lines 59-87) *)

Module SetupLogger.

(** The fields of [siri.args] the set-up reads. *)
Record siri_args_t := {
  log_level : string;
  log_colorized : Z
}.

(** The global [Logger]: its flags, and the levels [logger_init] has been
    called with, in order. *)
Record logger_t := {
  flags : Z;
  initialised : list Z
}.

Section Logger.

(** logger/logger.h and strextra/strextra.h are not among the sources:
    the [DEBUG] macro being defined or not, the flag constant, the table
    of level names ([LOGGER_NUM_LEVELS] entries) and the lower-casing
    function are taken as given.  Each name is copied into [lname[255]]
    before it is lower-cased: the properties below assume the names are
    shorter than that. *)
Context (DEBUG : bool)
        (LOGGER_FLAG_COLORED : Z)
        (LOGGER_LEVEL_NAMES : list string)
        (strx_lower_case : string -> string).

(** Lines 73-86: the [for] loop from [n] on, then the fall-back; the
    result is the level handed to [logger_init]. *)
Fixpoint siri_setup_logger_level (level : string) (n : nat) (names : list string) : Z :=
  match names with
  | [] =>
      (* We should not get here since args should always contain a valid
         log level *)
      10
  | name :: rest =>
      let lname := strx_lower_case name in
      if (strlen lname =? strlen level)%nat && (strcmp level lname =? 0)
      then (Z.of_nat n + 1) * 10
      else siri_setup_logger_level level (S n) rest
  end.

Definition siri_setup_logger (args : siri_args_t) (Logger : logger_t) : logger_t :=
  let Logger :=
    (* #ifndef DEBUG: if (siri.args->log_colorized) *)
    if DEBUG || negb (log_colorized args =? 0)
    then {| flags := Z.lor (flags Logger) LOGGER_FLAG_COLORED;
            initialised := initialised Logger |}
    else Logger in
  {| flags := flags Logger;
     initialised :=
       initialised Logger
       ++ [siri_setup_logger_level (log_level args) 0 LOGGER_LEVEL_NAMES] |}.

End Logger.

End SetupLogger.

(** ** Further vocabulary *)

(** The number of calls of one kind in a trace. *)
Definition count_if (P : event -> bool) (evs : list event) : nat :=
  length (List.filter P evs).

Definition is_opendir (e : event) : bool :=
  match e with EvOpendir _ => true | _ => false end.
Definition is_closedir (e : event) : bool :=
  match e with EvClosedir => true | _ => false end.
Definition is_cfgparser_new (e : event) : bool :=
  match e with EvCfgparserNew => true | _ => false end.
Definition is_cfgparser_free (e : event) : bool :=
  match e with EvCfgparserFree => true | _ => false end.
Definition is_unpacker_open (e : event) : bool :=
  match e with EvQpFromFileUnpacker _ => true | _ => false end.
Definition is_unpacker_free (e : event) : bool :=
  match e with EvQpFreeUnpacker _ => true | _ => false end.
Definition is_llist_append (e : event) : bool :=
  match e with EvLlistAppend _ => true | _ => false end.
Definition is_incref (e : event) : bool :=
  match e with EvSiridbIncref _ => true | _ => false end.

(** The counts that matter for the resources of the scan: [closedir],
    [cfgparser_new], [cfgparser_free], [qp_from_file_unpacker],
    [qp_free_unpacker], [llist_append], [siridb_incref], [opendir]. *)
Definition tallies (evs : list event) : list nat :=
  map (fun P => count_if P evs)
    [is_closedir; is_cfgparser_new; is_cfgparser_free; is_unpacker_open;
     is_unpacker_free; is_llist_append; is_incref; is_opendir].

(** The instances handed to the destructor, in order. *)
Definition destroyed (evs : list event) : list ptr :=
  omap (fun e => match e with EvSiridbFreeCb p => Some p | _ => None end) evs.

(** Every pointer of the registry is in the heap, and none is there
    twice. *)
Definition registry_wf (w : world) : Prop :=
  NoDup (siridb_list (siri w))
  /\ Forall (fun p => (p < length (heap w))%nat) (siridb_list (siri w)).

(** Everything of the [siri] structure but the registry. *)
Definition same_globals (s s' : siri_t) : Prop :=
  grammar s' = grammar s /\ loop s' = loop s /\ fh s' = fh s
  /\ optimize s' = optimize s /\ heartbeat s' = heartbeat s /\ cfg s' = cfg s.

Section FurtherVocabulary.

Context (E : env).

(** The instance a candidate ends up as, when its metadata parses. *)
Definition instance_of (base d_name : string) : option siridb_t :=
  match parse_metadata E base d_name with
  | Some db => Some (finished E (at_stages E base d_name db))
  | None => None
  end.

(** The instances the scan allocates, in order. *)
Fixpoint allocated (base : string) (stream : list string) : list siridb_t :=
  match stream with
  | [] => []
  | d_name :: rest =>
      match verdict_of E base d_name with
      | Registered db _ => [db]
      | _ => []
      end ++ (if fails E base d_name then [] else allocated base rest)
  end.


End FurtherVocabulary.

(** A path of [n] characters 'd' under "/", for the long-path case. *)
Fixpoint long_name (n : nat) : string :=
  match n with
  | O => ""
  | S n' => String "d" (long_name n')
  end.

(** A loop on which a UDP handle, a type [walk_close_handlers] has no case
    for, sits between a signal watcher and a listener. *)
Definition stray_loop : uv_loop_t := {|
  handles := [
    {| hid := 0; htype := UV_SIGNAL; data := None |};
    {| hid := 1; htype := UV_UDP; data := None |};
    {| hid := 2; htype := UV_TCP; data := None |}
  ]
|}.

Definition stray_world : world := {|
  siri := {| grammar := Some tt; loop := Some stray_loop; siridb_list := [];
             fh := Some 512; optimize := true; heartbeat := true;
             cfg := {| default_db_path := "/var/lib/siridb/";
                       max_open_files := 512 |} |};
  heap := []
|}.


(** The calls that look at a directory entry from outside: [fstatat] on
    its name (line 134) and [access] on its database.conf (line 148). *)
Definition is_probe (e : event) : bool :=
  match e with
  | EvFstatat _ | EvAccess _ => true
  | _ => false
  end.

Definition probes (evs : list event) : list event := List.filter is_probe evs.

(** The probes lines 126-148 make for one entry. *)
Definition probes_of (E : env) (base d_name : string) : list event :=
  if skip_name d_name then []
  else EvFstatat d_name
       :: (if is_directory E d_name then [EvAccess (conf_path base d_name)]
           else []).

(** An instance of the logger's tables for the examples: ASCII
    lower-casing and five level names. *)
Definition ascii_lower (c : ascii) : ascii :=
  let n := nat_of_ascii c in
  if (65 <=? n)%nat && (n <=? 90)%nat then ascii_of_nat (n + 32) else c.

Fixpoint lower_case (s : string) : string :=
  match s with
  | EmptyString => EmptyString
  | String c rest => String (ascii_lower c) (lower_case rest)
  end.

Definition demo_level_names : list string :=
  ["DEBUG"; "INFO"; "WARNING"; "ERROR"; "CRITICAL"].

(** The six loaders of lines 221-267 for the instance at [p], in the
    order of the source, each with the code it returns. *)
Definition stage_calls_of (E : env) (p : ptr) (db : siridb_t) : list (event * Z) :=
  [(EvUsersLoad p, siridb_users_load E db);
   (EvServersLoad p, siridb_servers_load E db);
   (EvSeriesLoad p, siridb_series_load E db);
   (EvLoadBuffer p, siridb_load_buffer E db);
   (EvBufferOpen p, siridb_buffer_open E db);
   (EvShardsLoad p, siridb_shards_load E db)].

(** The calls made when each one is followed by the next only if it
    returns zero. *)
Fixpoint until_failure (calls : list (event * Z)) : list event :=
  match calls with
  | [] => []
  | (e, rc) :: rest => e :: (if rc =? 0 then until_failure rest else [])
  end.

Definition is_stage_call (e : event) : bool :=
  match e with
  | EvUsersLoad _ | EvServersLoad _ | EvSeriesLoad _ | EvLoadBuffer _
  | EvBufferOpen _ | EvShardsLoad _ => true
  | _ => false
  end.

(** What follows the loaders (lines 269-281). *)
Definition is_completion (e : event) : bool :=
  match e with
  | EvPoolsGen _ | EvImap32Walk _ | EvTime => true
  | _ => false
  end.

(** ** Long paths *)

(** A data directory whose path has 4000 characters, holding one
    directory with a name of 120 characters; every call succeeds, and
    the configuration has no buffer_path option. *)
Definition long_base : string := "/" +:+ long_name 3998 +:+ "/".

Definition long_env : env := {|
  stat_ok := fun _ => true;
  mkdir_ok := fun _ _ => true;
  opendir := fun _ => Some [long_name 120];
  fstatat := fun _ => Some 16877;
  access_R_OK := fun _ => true;
  time := 1477000000;
  cfgparser_read := fun _ => CFGPARSER_SUCCESS;
  cfgparser_errmsg := fun _ => "error";
  cfgparser_get_option := fun _ _ _ => (CFGPARSER_ERR 5, OptInteger 0);
  qp_from_file_unpacker := fun p => Some {| qp_source := p |};
  siridb_from_unpacker := fun _ => inr (fresh_db "long");
  siridb_users_load := fun _ => 0;
  siridb_servers_load := fun _ => 0;
  siridb_series_load := fun _ => 0;
  siridb_load_buffer := fun _ => 0;
  siridb_buffer_open := fun _ => 0;
  siridb_shards_load := fun _ => 0;
  sirinet_bserver_init := (0, [(UV_TCP, None)]);
  sirinet_clserver_init := (0, [(UV_TCP, None)]);
  siri_optimize_init := [(UV_TIMER, None)];
  siri_heartbeat_init := [(UV_TIMER, None)];
  uv_loop_close := 0
|}.

Definition long_world : world := {|
  siri := {| grammar := None; loop := None; siridb_list := []; fh := None;
             optimize := false; heartbeat := false;
             cfg := {| default_db_path := long_base; max_open_files := 512 |} |};
  heap := []
|}.



(** ** Close procedures *)

(** The close procedure of section 4.4 of the specification for a
    handle of one of the four types, as the calls it stands for: a signal
    watcher is closed with no callback; a connection or listener handle
    is closed with no callback if it carries no payload, and with the
    callback that frees the payload otherwise; a timer is stopped, then
    closed; an async handle is closed with the callback that frees it.
    (No procedure is specified for any other type.) *)
Definition close_procedure (h : uv_handle_t) : list event :=
  match htype h with
  | UV_SIGNAL => [EvUvClose (hid h) CB_NULL]
  | UV_TCP =>
      match data h with
      | None => [EvUvClose (hid h) CB_NULL]
      | Some _ => [EvUvClose (hid h) CB_sirinet_socket_free]
      end
  | UV_TIMER => [EvUvTimerStop (hid h); EvUvClose (hid h) CB_NULL]
  | UV_ASYNC => [EvUvClose (hid h) CB_free]
  | _ => []
  end.

(** The callbacks handed to [uv_close], by handle. *)
Definition close_callbacks (evs : list event) : list (nat * uv_close_cb) :=
  omap (fun e => match e with EvUvClose h cb => Some (h, cb) | _ => None end) evs.

(** ** The stop flag of the loop *)

(** libuv is not among the sources.  Three facts of its documentation
    are enough to follow a close callback through a trace: [uv_close]
    queues the callback of the handle, which a later iteration of the
    loop calls; [uv_stop] sets the stop flag of the loop; [uv_run] runs
    no iteration when it finds the flag set: it clears the flag and
    returns.  What an iteration does when the flag is not set is left
    open: it is the parameter [iterate]. *)
Record reactor := {
  stop_flag : bool;
  closing : list (nat * uv_close_cb)   (* closed, callback not yet called *)
}.

Definition reactor_step (iterate : reactor -> reactor) (r : reactor) (e : event)
    : reactor :=
  match e with
  | EvUvStop => {| stop_flag := true; closing := closing r |}
  | EvUvClose h cb => {| stop_flag := stop_flag r; closing := closing r ++ [(h, cb)] |}
  | EvUvRun =>
      if stop_flag r then {| stop_flag := false; closing := closing r |}
      else iterate r
  | _ => r
  end.

(** The loop after the calls of a trace. *)
Definition reactor_after (iterate : reactor -> reactor) (evs : list event)
    (r : reactor) : reactor :=
  fold_left (reactor_step iterate) evs r.

(** An iteration that calls every queued close callback. *)
Definition drain (r : reactor) : reactor := {| stop_flag := stop_flag r; closing := [] |}.

(** ** Running the monad *)

Arguments bind {A B} c k w /.
Arguments ret {A} a w /.
Arguments call e w /.
Arguments get_siri w /.
Arguments put_siri s w /.
Arguments get_heap w /.
Arguments put_heap h w /.
Arguments abort {A} w /.

Lemma lookup_last {A} (h : list A) (x : A) : (h ++ [x]) !! length h = Some x.
Proof. induction h; simpl; auto. Qed.

Lemma alter_last {A} (f : A -> A) (h : list A) (x : A) :
  alter f (length h) (h ++ [x]) = h ++ [f x].
Proof. induction h; simpl; [reflexivity | f_equal; exact IHh]. Qed.

Ltac step_heap :=
  repeat (simpl; rewrite ?lookup_last, ?alter_last).

Lemma error_then_cleanup_app (a b : list event) :
  error_then_cleanup b = true -> error_then_cleanup (a ++ b) = true.
Proof.
  intros Hb. induction a as [|e a IH]; simpl; [exact Hb |].
  rewrite IH. apply orb_true_r.
Qed.

Lemma occurrences_app (e : event) (a b : list event) :
  occurrences e (a ++ b) = (occurrences e a + occurrences e b)%nat.
Proof. apply count_occ_app. Qed.

Lemma occurrences_cons_eq (e : event) (evs : list event) :
  occurrences e (e :: evs) = S (occurrences e evs).
Proof. unfold occurrences. apply count_occ_cons_eq. reflexivity. Qed.

Lemma occurrences_cons_neq (e x : event) (evs : list event) :
  x <> e -> occurrences e (x :: evs) = occurrences e evs.
Proof. intros H. unfold occurrences. apply count_occ_cons_neq. exact H. Qed.

Lemma loader_calls_app (a b : list event) :
  loader_calls (a ++ b) = loader_calls a ++ loader_calls b.
Proof. apply omap_app. Qed.

(** ** The bootstrap, step by step *)

Section Bootstrap.

Context (E : env).

Lemma stages_run s h db :
  let r := siridb_load_databases_stages E (length h)
             {| siri := s; heap := h ++ [db] |} in
  result r = Done (if loaders_ok E db then None else Some 1)
  /\ final r = {| siri := s; heap := h ++ [finished E db] |}
  /\ loader_calls (events r) = []
  /\ occurrences EvReaddir (events r) = 0%nat
  /\ forallb is_bootstrap_event (events r) = true
  /\ (loaders_ok E db = false -> error_then_cleanup (events r) = true).
Proof.
  unfold siridb_load_databases_stages, load_stage, read_siridb,
    modify_siridb, log, finished, loaders_ok.
  step_heap.
  repeat match goal with
  | |- context [if ?b =? 0 then _ else _] =>
      destruct (b =? 0); step_heap
  end; repeat apply conj; try reflexivity; intros; discriminate.
Qed.

Lemma registered_run base d_name cfgparser s h db :
  let r := siridb_load_databases_registered E base d_name cfgparser (length h)
             {| siri := s; heap := h ++ [db] |} in
  let db1 := configured E base d_name cfgparser db in
  result r = Done (if loaders_ok E db1 then None else Some 1)
  /\ final r = {| siri := s; heap := h ++ [finished E db1] |}
  /\ loader_calls (events r) = []
  /\ occurrences EvReaddir (events r) = 0%nat
  /\ forallb is_bootstrap_event (events r) = true
  /\ (loaders_ok E db1 = false -> error_then_cleanup (events r) = true).
Proof.
  intros r db1. subst r.
  unfold siridb_load_databases_registered, read_siridb, modify_siridb, log.
  step_heap.
  assert (Hcfg :
    (let '(rc, option) := cfgparser_get_option E cfgparser "buffer" "buffer_path" in
     set_buffer_path
       (if bool_decide (rc = CFGPARSER_SUCCESS)
           && bool_decide (tp option = CFGPARSER_TP_STRING)
        then match option with OptString s0 => Some s0 | _ => None end
        else Some (db_path base d_name))
       (set_dbpath (Some (db_path base d_name)) db)) = db1).
  { subst db1. unfold configured.
    destruct (cfgparser_get_option E cfgparser "buffer" "buffer_path")
      as [[|c] [z|z|z]]; reflexivity. }
  destruct (cfgparser_get_option E cfgparser "buffer" "buffer_path") as [rc o].
  step_heap. rewrite Hcfg.
  pose proof (stages_run s h db1) as Hst. simpl in Hst.
  destruct (siridb_load_databases_stages E (length h)
              {| siri := s; heap := h ++ [db1] |}) as [res w' evs].
  simpl in *. destruct Hst as (-> & -> & Hc & Ho & Hb & He).
  repeat apply conj; try reflexivity; auto.
Qed.

Lemma pipeline_run base d_name w :
  let r := siridb_load_databases_pipeline E base d_name
             (conf_path base d_name) w in
  loader_calls (events r) = [conf_path base d_name]
  /\ occurrences EvReaddir (events r) = 0%nat
  /\ forallb is_bootstrap_event (events r) = true
  /\ match parse_metadata E base d_name with
     | None =>
         result r = Done (Some 1) /\ final r = w
         /\ error_then_cleanup (events r) = true
     | Some db =>
         let db1 := at_stages E base d_name db in
         result r = Done (if loaders_ok E db1 then None else Some 1)
         /\ final r = {| siri := llist_append (length (heap w)) (siri w);
                         heap := heap w ++ [finished E db1] |}
         /\ (loaders_ok E db1 = false -> error_then_cleanup (events r) = true)
     end.
Proof.
  unfold siridb_load_databases_pipeline, parse_metadata, log, modify_siridb.
  destruct w as [s h]. simpl.
  destruct (bool_decide (cfgparser_read E (conf_path base d_name) = CFGPARSER_SUCCESS));
    simpl; [| repeat apply conj; reflexivity].
  destruct (qp_from_file_unpacker E (dat_path base d_name)) as [u|];
    simpl; [| repeat apply conj; reflexivity].
  destruct (siridb_from_unpacker E u) as [msg|db];
    simpl; [repeat apply conj; reflexivity |].
  rewrite alter_last.
  pose proof (registered_run base d_name {| cfg_source := conf_path base d_name |}
                (llist_append (length h) s) h (incref db)) as Hr.
  simpl in Hr. fold (at_stages E base d_name db) in Hr.
  destruct (siridb_load_databases_registered E base d_name
              {| cfg_source := conf_path base d_name |} (length h)
              {| siri := llist_append (length h) s; heap := h ++ [incref db] |})
    as [res w' evs].
  simpl in *. destruct Hr as (-> & -> & Hc & Ho & Hb & He).
  rewrite Hc. repeat apply conj; try reflexivity; auto.
Qed.

Lemma entry_run d_name w :
  let base := default_db_path (cfg (siri w)) in
  let r := siridb_load_databases_entry E d_name w in
  let v := verdict_of E base d_name in
  result r = Done (entry_result v)
  /\ final r = world_after v w
  /\ loader_calls (events r)
     = (if candidate E base d_name then [conf_path base d_name] else [])
  /\ occurrences EvReaddir (events r) = 0%nat
  /\ forallb is_bootstrap_event (events r) = true
  /\ (fails E base d_name = true -> error_then_cleanup (events r) = true).
Proof.
  unfold siridb_load_databases_entry, fails, verdict_of, candidate, is_directory.
  destruct (skip_name d_name); simpl;
    [repeat apply conj; try reflexivity; discriminate |].
  destruct (fstatat E d_name) as [m|]; simpl;
    [| repeat apply conj; try reflexivity; discriminate].
  destruct (S_ISDIR m); simpl;
    [| repeat apply conj; try reflexivity; discriminate].
  destruct (access_R_OK E (conf_path (default_db_path (cfg (siri w))) d_name));
    simpl; [| repeat apply conj; try reflexivity; discriminate].
  pose proof (pipeline_run (default_db_path (cfg (siri w))) d_name w) as Hp.
  simpl in Hp.
  destruct (siridb_load_databases_pipeline E (default_db_path (cfg (siri w)))
              d_name (conf_path (default_db_path (cfg (siri w))) d_name) w)
    as [res w' evs].
  simpl in *. destruct Hp as (Hc & Ho & Hb & Hm).
  rewrite Hc.
  destruct (parse_metadata E (default_db_path (cfg (siri w))) d_name) as [db|];
    simpl in *.
  - destruct Hm as (-> & -> & He).
    repeat apply conj; try reflexivity; auto.
    destruct (loaders_ok E (at_stages E (default_db_path (cfg (siri w))) d_name db));
      simpl; [discriminate | auto].
  - destruct Hm as (-> & -> & He).
    repeat apply conj; try reflexivity; auto.
Qed.

Lemma world_after_cfg v w :
  cfg (siri (world_after v w)) = cfg (siri w).
Proof. destruct v; reflexivity. Qed.

Lemma world_after_loop v w :
  loop (siri (world_after v w)) = loop (siri w).
Proof. destruct v; reflexivity. Qed.

Lemma entries_read_cons evs d_name rest :
  entries_read (EvReaddir :: evs) (d_name :: rest)
  = d_name :: entries_read evs rest.
Proof.
  unfold entries_read, occurrences.
  rewrite count_occ_cons_eq by reflexivity. reflexivity.
Qed.

Lemma entries_read_app evs1 evs2 stream :
  occurrences EvReaddir evs1 = 0%nat ->
  entries_read (evs1 ++ evs2) stream = entries_read evs2 stream.
Proof.
  intros H. unfold entries_read. rewrite occurrences_app, H. reflexivity.
Qed.

Lemma entries_read_none evs stream :
  occurrences EvReaddir evs = 0%nat -> entries_read evs stream = [].
Proof. intros H. unfold entries_read. rewrite H. reflexivity. Qed.

Lemma loop_cons d_name rest w :
  siridb_load_databases_loop E (d_name :: rest) w
  = match siridb_load_databases_entry E d_name w with
    | Run (Done (Some rc)) w1 evs1 => Run (Done rc) w1 (EvReaddir :: evs1 ++ [])
    | Run (Done None) w1 evs1 =>
        match siridb_load_databases_loop E rest w1 with
        | Run res w2 evs2 => Run res w2 (EvReaddir :: evs1 ++ evs2)
        end
    | Run Aborted w1 evs1 => Run Aborted w1 (EvReaddir :: evs1)
    end.
Proof.
  simpl.
  destruct (siridb_load_databases_entry E d_name w) as [[[rc|]|] w1 evs1];
    try reflexivity.
  destruct (siridb_load_databases_loop E rest w1); reflexivity.
Qed.

Lemma loop_run stream : forall w,
  let base := default_db_path (cfg (siri w)) in
  let r := siridb_load_databases_loop E stream w in
  result r = Done (if existsb (fails E base) stream then 1 else 0)
  /\ final r = world_after_all E base stream w
  /\ loader_calls (events r)
     = map (conf_path base) (List.filter (candidate E base) (visited E base stream))
  /\ entries_read (events r) stream = visited E base stream
  /\ forallb is_bootstrap_event (events r) = true
  /\ (existsb (fails E base) stream = true ->
      error_then_cleanup (events r) = true).
Proof.
  induction stream as [|d_name rest IH]; intros w base r; subst r.
  - simpl. repeat apply conj; try reflexivity. discriminate.
  - pose proof (entry_run d_name w) as He. simpl in He. fold base in He.
    rewrite loop_cons.
    destruct (siridb_load_databases_entry E d_name w) as [res w1 evs1].
    simpl in He. destruct He as (-> & -> & Hc & Ho & Hb & Hf).
    cbn [existsb visited world_after_all List.filter].
    unfold fails in *.
    destruct (entry_result (verdict_of E base d_name)) as [rc|] eqn:Hres.
    + assert (rc = 1) as ->.
      { destruct (verdict_of E base d_name) as [| |db [|]]; simpl in Hres;
          congruence. }
      cbn [ret result final events orb app].
      rewrite app_nil_r, entries_read_cons, (entries_read_none evs1) by assumption.
      change (loader_calls (EvReaddir :: evs1)) with (loader_calls evs1).
      rewrite Hc.
      repeat apply conj; try reflexivity.
      * cbn [List.filter]. destruct (candidate E base d_name); reflexivity.
      * simpl. exact Hb.
      * intros _. simpl. auto.
    + specialize (IH (world_after (verdict_of E base d_name) w)).
      simpl in IH. rewrite world_after_cfg in IH. fold base in IH.
      destruct (siridb_load_databases_loop E rest
                  (world_after (verdict_of E base d_name) w)) as [res2 w2 evs2].
      simpl in IH. destruct IH as (-> & -> & Hc2 & Hr2 & Hb2 & Hf2).
      cbn [ret result final events orb app].
      rewrite entries_read_cons, entries_read_app, Hr2 by assumption.
      change (loader_calls (EvReaddir :: evs1 ++ evs2))
        with (loader_calls (evs1 ++ evs2)).
      rewrite loader_calls_app, Hc, Hc2.
      repeat apply conj; try reflexivity.
      * cbn [List.filter]. destruct (candidate E base d_name); reflexivity.
      * simpl. rewrite forallb_app, Hb, Hb2. reflexivity.
      * intros H. simpl. apply (error_then_cleanup_app evs1). auto.
Qed.

End Bootstrap.

(** ** Paths and names *)

Lemma substring_all (s : string) : forall n,
  (String.length s <= n)%nat -> substring 0 n s = s.
Proof.
  induction s as [|c s IH]; intros [|n] H; simpl in *; try reflexivity; try lia.
  rewrite IH by lia. reflexivity.
Qed.

Lemma snprintf_fits (s : string) : fits s -> snprintf PATH_MAX s = s.
Proof.
  unfold fits, snprintf. intros H. apply substring_all. lia.
Qed.

Lemma fits_by_computation (s : string) :
  (String.length s <? PATH_MAX)%nat = true -> fits s.
Proof. intros H. apply Nat.ltb_lt. exact H. Qed.

Lemma length_append (a b : string) :
  String.length (a +:+ b) = (String.length a + String.length b)%nat.
Proof. induction a as [|c a IH]; simpl; [reflexivity | rewrite IH; reflexivity]. Qed.

Lemma append_assoc (a b c : string) : (a +:+ b) +:+ c = a +:+ (b +:+ c).
Proof.
  induction a as [|x a IH]; [reflexivity |].
  change (String x ((a +:+ b) +:+ c) = String x (a +:+ (b +:+ c))).
  f_equal. exact IH.
Qed.

Lemma append_inv_head (a x y : string) : a +:+ x = a +:+ y -> x = y.
Proof. induction a as [|c a IH]; simpl; intros H; [exact H | injection H; auto]. Qed.

Lemma append_inv_tail (s : string) : forall x y, x +:+ s = y +:+ s -> x = y.
Proof.
  induction x as [|c x IH]; intros [|d y] H.
  - reflexivity.
  - apply (f_equal String.length) in H.
    rewrite !length_append in H. simpl in H. lia.
  - apply (f_equal String.length) in H.
    rewrite !length_append in H. simpl in H. lia.
  - cbn in H. injection H as -> H. f_equal. apply IH. exact H.
Qed.

Lemma child_path_inj (base x y suffix : string) :
  base +:+ x +:+ suffix = base +:+ y +:+ suffix -> x = y.
Proof.
  intros H. apply append_inv_head in H. apply append_inv_tail in H. exact H.
Qed.

Lemma byte_inj (c d : ascii) : byte c = byte d -> c = d.
Proof.
  unfold byte. intros H. apply Nat2Z.inj in H.
  rewrite <- (ascii_nat_embedding c), <- (ascii_nat_embedding d), H.
  reflexivity.
Qed.

Lemma byte_diff (c d : ascii) :
  Ascii.eqb c d = false -> (byte c - byte d =? 0) = false.
Proof.
  intros H. apply Z.eqb_neq. intros Hz.
  assert (c = d) as -> by (apply byte_inj; lia).
  rewrite Ascii.eqb_refl in H. discriminate.
Qed.

Lemma prefix_two (a b : ascii) (s : string) :
  String.prefix (String a (String b "")) s = true
  <-> exists rest, s = String a (String b rest).
Proof.
  rewrite prefix_correct.
  destruct s as [|c [|c' rest]]; cbn.
  - split; [discriminate | intros [r Hr]; discriminate].
  - split; [discriminate | intros [r Hr]; discriminate].
  - assert (Hs : substring 0 0 rest = "") by (destruct rest; reflexivity).
    rewrite Hs. split.
    + intros H. injection H as -> ->. eauto.
    + intros [r Hr]. injection Hr as -> -> _. reflexivity.
Qed.

Lemma skip_name_shape (d_name : string) :
  skip_name d_name = true
  <-> d_name = "."
      \/ (exists rest, d_name = String "." (String "." rest))
      \/ (exists rest, d_name = String "_" (String "_" rest)).
Proof.
  unfold skip_name, strlen.
  destruct d_name as [|c [|c' rest]];
    cbn [String.length strcmp strncmp Nat.eqb Nat.leb andb orb].
  - split; [discriminate | intros [H|[[r H]|[r H]]]; discriminate].
  - destruct (Ascii.eqb_spec c "."%char) as [->|Hc].
    + split; auto.
    + rewrite byte_diff by (apply Ascii.eqb_neq; exact Hc).
      split; [discriminate |].
      intros [H|[[r H]|[r H]]]; try discriminate. congruence.
  - destruct (Ascii.eqb_spec c "."%char) as [->|Hc].
    + destruct (Ascii.eqb_spec c' "."%char) as [->|Hc'].
      * split; eauto.
      * rewrite byte_diff by (apply Ascii.eqb_neq; exact Hc').
        cbn. split; [discriminate |].
        intros [H|[[r H]|[r H]]]; try discriminate. congruence.
    + rewrite byte_diff by (apply Ascii.eqb_neq; exact Hc).
      destruct (Ascii.eqb_spec c "_"%char) as [->|Hu].
      * destruct (Ascii.eqb_spec c' "_"%char) as [->|Hu'].
        -- split; eauto.
        -- rewrite byte_diff by (apply Ascii.eqb_neq; exact Hu').
           cbn. split; [discriminate |].
           intros [H|[[r H]|[r H]]]; try discriminate. congruence.
      * rewrite byte_diff by (apply Ascii.eqb_neq; exact Hu).
        cbn. split; [discriminate |].
        intros [H|[[r H]|[r H]]]; try discriminate; congruence.
Qed.

(** The name test of lines 126-130, in words: the name is ".", or it
    begins with ".." or with "__". *)
Lemma skip_name_spec (d_name : string) :
  skip_name d_name = true
  <-> d_name = "." \/ String.prefix ".." d_name = true
      \/ String.prefix "__" d_name = true.
Proof. rewrite skip_name_shape, !prefix_two. reflexivity. Qed.

Lemma skip_name_false (d_name : string) :
  skip_name d_name = false
  <-> d_name <> "." /\ String.prefix ".." d_name = false
      /\ String.prefix "__" d_name = false.
Proof.
  pose proof (skip_name_spec d_name) as H.
  destruct (skip_name d_name);
    destruct (String.prefix ".." d_name); destruct (String.prefix "__" d_name);
    intuition (try discriminate; try congruence).
Qed.

(** ** The call as a whole *)

Section BootstrapCall.

Context (E : env).

Lemma load_run w :
  let base := default_db_path (cfg (siri w)) in
  siridb_load_databases E w
  = if base_ready E base then
      match opendir E base with
      | None =>
          Run (Done 1) w
            (preamble E base
             ++ [EvOpendir base;
                 EvLog LOG_ERROR "Cannot open database directory '%s'."
                   [ArgS base]])
      | Some stream =>
          match siridb_load_databases_loop E stream w with
          | Run res w' evs => Run res w' (preamble E base ++ EvOpendir base :: evs)
          end
      end
    else
      Run (Done 1) w
        (preamble E base
         ++ [EvLog LOG_ERROR "Cannot create directory '%s'." [ArgS base]]).
Proof.
  unfold siridb_load_databases, base_ready, preamble, log. simpl.
  destruct (stat_ok E (default_db_path (cfg (siri w)))); simpl.
  - destruct (opendir E (default_db_path (cfg (siri w)))); simpl;
      [destruct (siridb_load_databases_loop E l w) |]; reflexivity.
  - destruct (mkdir_ok E (default_db_path (cfg (siri w))) mode_0700); simpl;
      [| reflexivity].
    destruct (opendir E (default_db_path (cfg (siri w)))); simpl;
      [destruct (siridb_load_databases_loop E l w) |]; reflexivity.
Qed.

Lemma preamble_quiet base :
  loader_calls (preamble E base) = []
  /\ occurrences EvReaddir (preamble E base) = 0%nat
  /\ forallb is_bootstrap_event (preamble E base) = true.
Proof. unfold preamble. destruct (stat_ok E base); repeat split. Qed.

Lemma visited_incl base stream d_name :
  In d_name (visited E base stream) -> In d_name stream.
Proof.
  induction stream as [|x rest IH]; simpl; [auto |].
  intros [H|H]; [auto |].
  destruct (fails E base x); [destruct H | auto].
Qed.

Lemma visited_all base stream :
  existsb (fails E base) stream = false -> visited E base stream = stream.
Proof.
  induction stream as [|x rest IH]; simpl; [reflexivity |].
  destruct (fails E base x); simpl; [discriminate |].
  intros H. rewrite IH by exact H. reflexivity.
Qed.

Lemma visited_fail_fast base pre d_name rest :
  existsb (fails E base) pre = false -> fails E base d_name = true ->
  visited E base (pre ++ d_name :: rest) = pre ++ [d_name].
Proof.
  intros Hpre Hd. induction pre as [|x pre IH]; simpl in *.
  - rewrite Hd. reflexivity.
  - destruct (fails E base x); simpl in *; [discriminate |].
    rewrite IH by exact Hpre. reflexivity.
Qed.

Lemma world_after_all_keeps base stream : forall w,
  cfg (siri (world_after_all E base stream w)) = cfg (siri w)
  /\ loop (siri (world_after_all E base stream w)) = loop (siri w).
Proof.
  induction stream as [|x rest IH]; intros w; simpl; [auto |].
  destruct (fails E base x).
  - rewrite world_after_cfg, world_after_loop. auto.
  - destruct (IH (world_after (verdict_of E base x) w)) as [-> ->].
    rewrite world_after_cfg, world_after_loop. auto.
Qed.

Lemma world_after_all_skips base stream : forall w,
  forallb (fun d => negb (candidate E base d)) stream = true ->
  world_after_all E base stream w = w.
Proof.
  induction stream as [|x rest IH]; intros w; simpl; [reflexivity |].
  unfold fails, verdict_of.
  destruct (candidate E base x); simpl; [discriminate |]. apply IH.
Qed.

Lemma fails_candidate base d_name :
  fails E base d_name = true -> candidate E base d_name = true.
Proof.
  unfold fails, verdict_of. destruct (candidate E base d_name);
    [reflexivity | discriminate].
Qed.

(** A load fails when the entry is a candidate and either its
    configuration or metadata does not parse, or one of the six loaders
    returns non-zero. *)
Lemma fails_spec base d_name :
  fails E base d_name = true
  <-> candidate E base d_name = true
      /\ (parse_metadata E base d_name = None
          \/ exists db, parse_metadata E base d_name = Some db
                        /\ loaders_ok E (at_stages E base d_name db) = false).
Proof.
  unfold fails, verdict_of.
  destruct (candidate E base d_name); simpl;
    [| split; [discriminate | intros [H _]; discriminate]].
  destruct (parse_metadata E base d_name) as [db|]; simpl.
  - destruct (loaders_ok E (at_stages E base d_name db)) eqn:Hok; simpl.
    + split; [discriminate |].
      intros [_ [H|[db' [H1 H2]]]]; [discriminate |].
      injection H1 as <-. congruence.
    + split; [| reflexivity]. intros _. split; [reflexivity |]. eauto.
  - split; auto.
Qed.

Lemma load_bootstrap_only w :
  forallb is_bootstrap_event (events (siridb_load_databases E w)) = true
  /\ (exists rc, result (siridb_load_databases E w) = Done rc)
  /\ cfg (siri (final (siridb_load_databases E w))) = cfg (siri w)
  /\ loop (siri (final (siridb_load_databases E w))) = loop (siri w).
Proof.
  rewrite load_run.
  destruct (preamble_quiet (default_db_path (cfg (siri w)))) as (_ & _ & Hp).
  destruct (base_ready E (default_db_path (cfg (siri w)))).
  - destruct (opendir E (default_db_path (cfg (siri w)))) as [stream|].
    + pose proof (loop_run E stream w) as Hl. cbv zeta in Hl.
      destruct (siridb_load_databases_loop E stream w) as [res w' evs].
      cbn [result final events] in *.
      destruct Hl as (-> & -> & _ & _ & Hb & _).
      rewrite forallb_app, Hp. cbn [forallb is_bootstrap_event andb].
      rewrite Hb.
      destruct (world_after_all_keeps (default_db_path (cfg (siri w))) stream w)
        as [-> ->].
      eauto.
    + cbn [result final events]. rewrite forallb_app, Hp. simpl. eauto.
  - cbn [result final events]. rewrite forallb_app, Hp. simpl. eauto.
Qed.

End BootstrapCall.

(** ** Properties of the bootstrap *)

(** C10.  A name of at least two characters that begins with ".." is
    skipped by the name test of the loop, whatever follows the two dots
    ("..backup" as well as ".."): the loop body does nothing for it.  A
    name that begins with one "." followed by another character
    (".hidden") passes the name test: the body goes on to [fstatat], and,
    for a directory, to the [access] check of its database.conf. *)
Theorem dotdot_prefix_is_skipped (E : env) (w : world) (c : ascii) (rest : string)
    (Hc : c <> "."%char) :
  let dotdot := String "." (String "." rest) in
  let hidden := String "." (String c rest) in
  skip_name dotdot = true
  /\ siridb_load_databases_entry E dotdot w = Run (Done None) w []
  /\ skip_name hidden = false
  /\ exists tail,
       events (siridb_load_databases_entry E hidden w) = EvFstatat hidden :: tail
       /\ (is_directory E hidden = true ->
           exists tail',
             tail = EvAccess (conf_path (default_db_path (cfg (siri w))) hidden)
                    :: tail').
Proof.
  intros dotdot hidden.
  assert (Hd : skip_name dotdot = true).
  { apply skip_name_shape. right. left. exists rest. reflexivity. }
  assert (Hh : skip_name hidden = false).
  { destruct (skip_name hidden) eqn:Hs; [| reflexivity].
    apply skip_name_shape in Hs.
    destruct Hs as [H|[[r H]|[r H]]]; subst hidden;
      try discriminate; congruence. }
  repeat apply conj; try assumption.
  - unfold siridb_load_databases_entry. rewrite Hd. reflexivity.
  - unfold siridb_load_databases_entry, is_directory. rewrite Hh.
    destruct (fstatat E hidden) as [m|]; simpl.
    + destruct (S_ISDIR m); simpl.
      * destruct (access_R_OK E (conf_path (default_db_path (cfg (siri w))) hidden));
          simpl.
        -- destruct (siridb_load_databases_pipeline E
                       (default_db_path (cfg (siri w))) hidden
                       (conf_path (default_db_path (cfg (siri w))) hidden) w).
           eexists. split; [reflexivity |]. eauto.
        -- eexists. split; [reflexivity |]. eauto.
      * eexists. split; [reflexivity |]. discriminate.
    + eexists. split; [reflexivity |]. discriminate.
Qed.

Lemma dotdot_prefix_is_skipped_witness :
  skip_name "..backup" = true
  /\ skip_name ".hidden" = false.
Proof.
  assert (Hc : "h"%char <> "."%char) by discriminate.
  pose proof (dotdot_prefix_is_skipped (demo_env true 0 0) demo_world
                "h" "idden" Hc) as H.
  cbv zeta in H. destruct H as (_ & _ & Hh & _).
  pose proof (dotdot_prefix_is_skipped (demo_env true 0 0) demo_world
                "h" "backup" Hc) as H.
  cbv zeta in H. destruct H as (Hd & _).
  split; [exact Hd | exact Hh].
Defined.

(** C3, as stated, fails on three layouts.  When the load of "dbtest"
    fails, the entry "later" that follows it is a directory with a
    readable database.conf and an ordinary name, and it is not passed to
    the loader: the scan has stopped.  "..backup" is a directory, is
    neither "." nor "..", does not begin with "__" and holds a readable
    database.conf, and it is not passed to the loader either: it does not
    pass the name test of lines 126-130.  And under a base path of 4000
    characters, a directory with a name of 120 characters and a readable
    database.conf is a candidate, but what the loader is handed is not
    its database.conf: it is the path cut by [snprintf] at
    [PATH_MAX - 1] characters. *)
Lemma name_filter_counterexample :
  let stream := ["."; ".."; "__backup"; "..backup"; ".hidden"; "notes.txt";
                 "empty"; "dbtest"; "later"] in
  (opendir (demo_env true 7 0) "/var/lib/siridb/" = Some stream
   /\ name_filter_as_stated (demo_env true 7 0) demo_world stream = false
   /\ name_filter_as_stated (demo_env true 7 0) demo_world ["later"] = false
   /\ is_directory (demo_env true 7 0) "later" = true
   /\ access_R_OK (demo_env true 7 0) "/var/lib/siridb/later/database.conf" = true
   /\ passed_to_loaderb
        (events (siridb_load_databases (demo_env true 7 0) demo_world))
        "/var/lib/siridb/" "later" = false)
  /\ (opendir (demo_env true 0 0) "/var/lib/siridb/" = Some stream
      /\ name_filter_as_stated (demo_env true 0 0) demo_world stream = false
      /\ name_filter_as_stated (demo_env true 0 0) demo_world ["..backup"] = false
      /\ is_directory (demo_env true 0 0) "..backup" = true
      /\ access_R_OK (demo_env true 0 0) "/var/lib/siridb/..backup/database.conf"
         = true
      /\ passed_to_loaderb
           (events (siridb_load_databases (demo_env true 0 0) demo_world))
           "/var/lib/siridb/" "..backup" = false)
  /\ (opendir long_env long_base = Some [long_name 120]
      /\ name_filter_as_stated long_env long_world [long_name 120] = false
      /\ is_directory long_env (long_name 120) = true
      /\ access_R_OK long_env (long_base +:+ long_name 120 +:+ "/database.conf")
         = true
      /\ loader_calls (events (siridb_load_databases long_env long_world))
         = [substring 0 4095 (long_base +:+ long_name 120)]
      /\ passed_to_loaderb
           (events (siridb_load_databases long_env long_world))
           long_base (long_name 120) = false).
Proof. vm_compute. repeat split. Qed.

(** C3, amended.  The scan reads the entries in turn and stops at the
    first whose load fails; when the call returns 0, every entry of the
    stream has been read.  The loader is called once, in the order of the
    stream, for each entry read that passes the tests of lines 126-148,
    and for nothing else; it is handed the path formatted at lines
    141-145, the base path immediately followed by the name and
    "/database.conf", cut to [PATH_MAX - 1] characters.  For a name that
    does not begin with "..", or is ".." itself, passing the tests is
    being a directory, not being named "." or "..", not beginning with
    "__", and [access] with [R_OK] succeeding on the formatted path.  An
    entry that does not pass is skipped without an error: the loop body
    returns nothing, changes nothing and logs no error.  When every
    formatted path is shorter than [PATH_MAX], nothing is cut, and of the
    entries read whose name does not begin with "..", or is ".." itself,
    exactly those are passed to the loader that are directories, are not
    named "." or "..", do not begin with "__", and hold a readable
    database.conf. *)
Theorem loader_called_on_candidates (E : env) (w : world) (stream : list string) :
  let base := default_db_path (cfg (siri w)) in
  let r := siridb_load_databases E w in
  let seen := entries_read (events r) stream in
  opendir E base = Some stream ->
  loader_calls (events r)
  = map (conf_path base) (List.filter (candidate E base) seen)
  /\ (result r = Done 0 -> seen = stream)
  /\ (forall d_name,
        String.prefix ".." d_name = false \/ d_name = ".." ->
        candidate E base d_name = true
        <-> (is_directory E d_name = true
             /\ d_name <> "." /\ d_name <> ".."
             /\ String.prefix "__" d_name = false
             /\ access_R_OK E (conf_path base d_name) = true))
  /\ (forall d_name w',
        default_db_path (cfg (siri w')) = base ->
        candidate E base d_name = false ->
        siridb_load_databases_entry E d_name w' = Run (Done None) w'
          (events (siridb_load_databases_entry E d_name w'))
        /\ existsb is_error_log
             (events (siridb_load_databases_entry E d_name w')) = false)
  /\ (Forall (fun d_name => fits (base +:+ d_name +:+ "/database.conf")) stream ->
      (forall d_name, In d_name stream ->
         conf_path base d_name = base +:+ d_name +:+ "/database.conf")
      /\ loader_calls (events r)
         = map (fun d_name => base +:+ d_name +:+ "/database.conf")
             (List.filter (candidate E base) seen)
      /\ forall d_name, In d_name seen ->
           String.prefix ".." d_name = false \/ d_name = ".." ->
           passed_to_loader (events r) base d_name
           <-> (is_directory E d_name = true
                /\ d_name <> "." /\ d_name <> ".."
                /\ String.prefix "__" d_name = false
                /\ access_R_OK E (base +:+ d_name +:+ "/database.conf") = true)).
Proof.
  intros base r seen Hopen. subst r seen.
  assert (Hcand : forall d,
            String.prefix ".." d = false \/ d = ".." ->
            candidate E base d = true
            <-> (is_directory E d = true /\ d <> "." /\ d <> ".."
                 /\ String.prefix "__" d = false
                 /\ access_R_OK E (conf_path base d) = true)).
  { intros d Hdots. unfold candidate.
    rewrite !andb_true_iff, negb_true_iff, skip_name_false.
    destruct Hdots as [Hp| ->].
    - assert (d <> "..") by (intros ->; discriminate). tauto.
    - assert (Hp : String.prefix ".." ".." = true) by reflexivity.
      rewrite Hp. split; [intros [[[_ [H _]] _] _]; discriminate | tauto]. }
  assert (Hskip : forall d w',
            default_db_path (cfg (siri w')) = base ->
            candidate E base d = false ->
            siridb_load_databases_entry E d w' = Run (Done None) w'
              (events (siridb_load_databases_entry E d w'))
            /\ existsb is_error_log
                 (events (siridb_load_databases_entry E d w')) = false).
  { intros d w' Hbase. rewrite <- Hbase.
    unfold candidate, is_directory, siridb_load_databases_entry.
    destruct (skip_name d); simpl; [split; reflexivity |].
    destruct (fstatat E d) as [m|]; simpl; [| split; reflexivity].
    destruct (S_ISDIR m); simpl; [| split; reflexivity].
    destruct (access_R_OK E (conf_path (default_db_path (cfg (siri w'))) d));
      simpl; [discriminate | split; reflexivity]. }
  assert (Hmain : loader_calls (events (siridb_load_databases E w))
                  = map (conf_path base)
                      (List.filter (candidate E base)
                         (entries_read (events (siridb_load_databases E w)) stream))
                  /\ (result (siridb_load_databases E w) = Done 0 ->
                      entries_read (events (siridb_load_databases E w)) stream
                      = stream)
                  /\ incl (entries_read (events (siridb_load_databases E w)) stream)
                       stream).
  { rewrite load_run. fold base.
    destruct (preamble_quiet E base) as (Hpc & Hpo & _).
    destruct (base_ready E base).
    - rewrite Hopen.
      pose proof (loop_run E stream w) as Hl. cbv zeta in Hl. fold base in Hl.
      destruct (siridb_load_databases_loop E stream w) as [res w' evs].
      cbn [result final events] in *.
      destruct Hl as (-> & _ & Hc & Hr & _ & _).
      assert (Hseen : entries_read (preamble E base ++ EvOpendir base :: evs) stream
                      = visited E base stream).
      { rewrite entries_read_app by exact Hpo.
        unfold entries_read in *. rewrite occurrences_cons_neq by discriminate.
        exact Hr. }
      rewrite Hseen, loader_calls_app, Hpc. cbn [app].
      change (loader_calls (EvOpendir base :: evs)) with (loader_calls evs).
      split; [exact Hc |]. split.
      + intros Hres. apply visited_all.
        destruct (existsb (fails E base) stream); [discriminate | reflexivity].
      + intros d Hd. apply (visited_incl E base). exact Hd.
    - cbn [result final events].
      assert (Hnone : entries_read
                        (preamble E base
                         ++ [EvLog LOG_ERROR "Cannot create directory '%s'."
                               [ArgS base]]) stream = []).
      { apply entries_read_none. rewrite occurrences_app, Hpo. reflexivity. }
      rewrite Hnone, loader_calls_app, Hpc.
      split; [reflexivity |]. split; [discriminate |]. intros d []. }
  destruct Hmain as (Hcalls & Hall & Hincl).
  split; [exact Hcalls |]. split; [exact Hall |].
  split; [exact Hcand |]. split; [exact Hskip |].
  intros Hfits.
  assert (Hpath : forall d, In d stream ->
            conf_path base d = base +:+ d +:+ "/database.conf").
  { intros d Hd. unfold conf_path. apply snprintf_fits.
    rewrite Forall_forall in Hfits. apply Hfits.
    apply list_elem_of_In. exact Hd. }
  assert (Hfull : loader_calls (events (siridb_load_databases E w))
                  = map (fun d => base +:+ d +:+ "/database.conf")
                      (List.filter (candidate E base)
                         (entries_read (events (siridb_load_databases E w)) stream))).
  { rewrite Hcalls. apply map_ext_in. intros d Hd.
    apply filter_In in Hd. apply Hpath, Hincl, Hd. }
  split; [exact Hpath |]. split; [exact Hfull |].
  intros d Hd Hdots. unfold passed_to_loader. rewrite Hfull.
  rewrite <- (Hpath d (Hincl d Hd)), <- (Hcand d Hdots), (Hpath d (Hincl d Hd)).
  rewrite in_map_iff. split.
  - intros (d' & Heq & Hin). apply child_path_inj in Heq. subst d'.
    apply filter_In in Hin. tauto.
  - intros Hc'. exists d. split; [reflexivity |].
    apply filter_In. auto.
Qed.

Lemma loader_called_on_candidates_witness :
  loader_calls (events (siridb_load_databases (demo_env true 0 0) demo_world))
  = ["/var/lib/siridb/.hidden/database.conf";
     "/var/lib/siridb/dbtest/database.conf";
     "/var/lib/siridb/later/database.conf"].
Proof.
  assert (Hopen : opendir (demo_env true 0 0)
                    (default_db_path (cfg (siri demo_world)))
                  = Some ["."; ".."; "__backup"; "..backup"; ".hidden";
                          "notes.txt"; "empty"; "dbtest"; "later"])
    by reflexivity.
  assert (Hfits : Forall (fun d_name =>
                     fits (default_db_path (cfg (siri demo_world))
                           +:+ d_name +:+ "/database.conf"))
                    ["."; ".."; "__backup"; "..backup"; ".hidden";
                     "notes.txt"; "empty"; "dbtest"; "later"]).
  { repeat (apply List.Forall_cons;
            [apply fits_by_computation; vm_compute; reflexivity |]).
    apply List.Forall_nil. }
  destruct (loader_called_on_candidates (demo_env true 0 0) demo_world _ Hopen)
    as (_ & _ & _ & _ & Hfit).
  destruct (Hfit Hfits) as (_ & Hcalls & _).
  rewrite Hcalls. vm_compute. reflexivity.
Defined.

(** C1, as stated, fails: when [siridb_users_load] fails for "dbtest", the
    loop body returns 1 and the registry, empty before, holds the
    instance of "dbtest". *)
Lemma no_partial_instance_counterexample :
  let r := siridb_load_databases_entry (demo_env true 7 0) "dbtest" demo_world in
  no_partial_instance_as_stated (demo_env true 7 0) demo_world "dbtest" = false
  /\ result r = Done (Some 1)
  /\ siridb_list (siri demo_world) = []
  /\ siridb_list (siri (final r)) = [0%nat]
  /\ (dbpath <$> heap (final r) !! 0%nat) = Some (Some "/var/lib/siridb/dbtest/").
Proof. vm_compute. repeat split. Qed.

(** The same through [siridb_load_databases]: it returns 1 and leaves two
    instances in the registry, the second of which ("dbtest") has no start
    time yet. *)
Example partial_instance_after_failed_call :
  let r := siridb_load_databases (demo_env true 7 0) demo_world in
  result r = Done 1
  /\ siridb_list (siri (final r)) = [0%nat; 1%nat]
  /\ (dbpath <$> heap (final r) !! 1%nat) = Some (Some "/var/lib/siridb/dbtest/")
  /\ (start_ts <$> heap (final r) !! 1%nat) = Some 0.
Proof. vm_compute. repeat split. Qed.

(** C1, amended.  When the configuration or the metadata of a candidate
    does not parse ([cfgparser_read], [qp_from_file_unpacker],
    [siridb_from_unpacker]), the loop body returns 1 and the registry and
    the heap are as before.  When they parse and one of the six loaders
    (users, servers, series, buffer load, buffer open, shards) fails, the
    body returns 1 as well, but the instance was appended at line 190
    and stays: the registry has grown by one pointer, to the instance
    with its reference count incremented and its paths set. *)
Theorem failed_load_registry (E : env) (w : world) (d_name : string) :
  let base := default_db_path (cfg (siri w)) in
  let r := siridb_load_databases_entry E d_name w in
  candidate E base d_name = true ->
  (parse_metadata E base d_name = None ->
   result r = Done (Some 1) /\ final r = w)
  /\ (forall db,
       parse_metadata E base d_name = Some db ->
       loaders_ok E (at_stages E base d_name db) = false ->
       result r = Done (Some 1)
       /\ siridb_list (siri (final r)) = siridb_list (siri w) ++ [length (heap w)]
       /\ heap (final r) = heap w ++ [at_stages E base d_name db]
       /\ ref (at_stages E base d_name db) = ref db + 1).
Proof.
  intros base r Hcand. subst r.
  destruct (entry_run E d_name w) as (Hres & Hfin & _). fold base in Hres, Hfin.
  unfold verdict_of in Hres, Hfin. rewrite Hcand in Hres, Hfin.
  split.
  - intros Hp. rewrite Hp in Hres, Hfin. auto.
  - intros db Hp Hok. rewrite Hp in Hres, Hfin. cbv zeta in Hres, Hfin.
    unfold finished in Hfin. rewrite Hok in Hres, Hfin.
    rewrite Hres, Hfin. repeat apply conj; reflexivity.
Qed.

Lemma failed_load_registry_witness :
  siridb_list (siri (final (siridb_load_databases_entry (demo_env true 7 0)
                              "dbtest" demo_world)))
  = [0%nat].
Proof.
  assert (Hcand : candidate (demo_env true 7 0)
                    (default_db_path (cfg (siri demo_world))) "dbtest" = true)
    by (vm_compute; reflexivity).
  destruct (failed_load_registry (demo_env true 7 0) demo_world "dbtest" Hcand)
    as [_ H].
  destruct (H (fresh_db "/var/lib/siridb/dbtest/database.dat"))
    as (_ & Hl & _).
  - vm_compute. reflexivity.
  - vm_compute. reflexivity.
  - rewrite Hl. reflexivity.
Defined.




(** C8.  When [stat] does not find the base path, [mkdir] is called on it
    with mode 0700 (read, write and execute for the owner, nothing for
    group and others).  If [mkdir] fails, the call returns 1 and the
    registry is as before.  If it succeeds and the directory, once opened,
    holds no candidate, the call returns 0 and the registry is as before:
    empty when it was empty. *)
Theorem missing_base_path_created (E : env) (w : world) :
  let base := default_db_path (cfg (siri w)) in
  let r := siridb_load_databases E w in
  stat_ok E base = false ->
  (exists rest,
     events r
     = EvStat base
       :: EvLog LOG_WARNING
            "Database directory not found, creating directory '%s'." [ArgS base]
       :: EvMkdir base mode_0700 :: rest)
  /\ mode_0700 = 7 * 8 ^ 2
  /\ (mkdir_ok E base mode_0700 = false ->
      result r = Done 1 /\ final r = w
      /\ ~ In (EvOpendir base) (events r))
  /\ (mkdir_ok E base mode_0700 = true ->
      forall stream, opendir E base = Some stream ->
      forallb (fun d_name => negb (candidate E base d_name)) stream = true ->
      result r = Done 0 /\ final r = w
      /\ (siridb_list (siri w) = [] -> siridb_list (siri (final r)) = [])).
Proof.
  intros base r Hstat. subst r. rewrite load_run. fold base.
  unfold base_ready, preamble. rewrite Hstat. cbn [orb].
  repeat apply conj.
  - destruct (mkdir_ok E base mode_0700).
    + destruct (opendir E base) as [stream|].
      * destruct (siridb_load_databases_loop E stream w). simpl. eauto.
      * simpl. eauto.
    + simpl. eauto.
  - reflexivity.
  - intros ->. simpl. repeat split.
    intros [H|[H|[H|[H|[]]]]]; discriminate.
  - intros -> stream -> Hnone.
    pose proof (loop_run E stream w) as Hl. cbv zeta in Hl. fold base in Hl.
    destruct (siridb_load_databases_loop E stream w) as [res w' evs].
    cbn [result final events] in *.
    destruct Hl as (-> & -> & _).
    rewrite (world_after_all_skips E base stream w Hnone).
    assert (Hnf : existsb (fails E base) stream = false).
    { clear -Hnone. induction stream as [|x rest IH]; simpl in *; [reflexivity |].
      apply andb_true_iff in Hnone. destruct Hnone as [Hx Hrest].
      rewrite (IH Hrest), orb_false_r.
      destruct (fails E base x) eqn:Hf; [| reflexivity].
      apply fails_candidate in Hf. rewrite Hf in Hx. discriminate. }
    rewrite Hnf. auto.
Qed.

Lemma missing_base_path_created_witness :
  result (siridb_load_databases (demo_env false 0 0) demo_world) = Done 0
  /\ siridb_list (siri (final (siridb_load_databases (demo_env false 0 0)
                                 demo_world))) = [].
Proof.
  destruct (missing_base_path_created (demo_env false 0 0) demo_world eq_refl)
    as (_ & _ & _ & H).
  destruct (H eq_refl ["."; ".."] eq_refl) as (Hr & _ & Hl).
  - vm_compute. reflexivity.
  - split; [exact Hr | apply Hl; reflexivity].
Defined.

(** ** The event loop and its handles *)

Section Reactor.

Lemma uv_bind_all_run tds : forall w l,
  loop (siri w) = Some l ->
  uv_bind_all tds w
  = Run (Done tt)
      (with_handles (handles l ++ new_handles (length (handles l)) tds) w) [].
Proof.
  induction tds as [|td rest IH]; intros [s h] [hs] Hl; simpl in Hl.
  - simpl. unfold with_handles. simpl. rewrite app_nil_r, <- Hl.
    destruct s; reflexivity.
  - cbn [uv_bind_all]. unfold uv_bind, with_loop, set_loop. simpl.
    rewrite Hl. simpl.
    rewrite (IH _ {| handles := hs ++ [{| hid := length hs; htype := fst td;
                                          data := snd td |}] |})
      by reflexivity.
    unfold with_handles. simpl.
    rewrite length_app, <- app_assoc. simpl.
    replace (length hs + 1)%nat with (S (length hs)) by lia.
    reflexivity.
Qed.

Lemma walk_cons (walk_cb : uv_handle_t -> M unit) h rest w :
  uv_walk_handles walk_cb (h :: rest) w
  = match walk_cb h w with
    | Run (Done _) w1 evs1 =>
        match uv_walk_handles walk_cb rest w1 with
        | Run res w2 evs2 => Run res w2 (evs1 ++ evs2)
        end
    | Run Aborted w1 evs1 => Run Aborted w1 evs1
    end.
Proof. reflexivity. Qed.

(** What [walk_close_handlers] does on a handle of one of the four
    types: the calls it makes, the state being left as it is. *)
Lemma walk_close_known h w :
  known_handle h = true ->
  exists evs,
    walk_close_handlers h w = Run (Done tt) w evs
    /\ forallb is_close_event evs = true
    /\ closed_ids evs = [hid h].
Proof.
  unfold known_handle, walk_close_handlers, uv_close.
  destruct (htype h); try discriminate; intros _; simpl;
    eexists; repeat split.
Qed.

Lemma walk_known (hs : list uv_handle_t) : forall w,
  forallb known_handle hs = true ->
  exists closes,
    uv_walk_handles walk_close_handlers hs w = Run (Done tt) w closes
    /\ forallb is_close_event closes = true
    /\ closed_ids closes = map hid hs.
Proof.
  induction hs as [|h rest IH]; intros w Hk; simpl in Hk.
  - exists []. repeat split.
  - apply andb_true_iff in Hk. destruct Hk as [Hh Hrest].
    destruct (IH w Hrest) as (closes & Hrun & Hc & Hids).
    destruct (walk_close_known h w Hh) as (evs & Hh1 & Hh2 & Hh3).
    rewrite walk_cons, Hh1, Hrun.
    exists (evs ++ closes). repeat split.
    + rewrite forallb_app, Hh2, Hc. reflexivity.
    + unfold closed_ids in *. rewrite omap_app, Hh3, Hids. reflexivity.
Qed.


(** The walk against the close procedures of the specification. *)
Lemma walk_close_exact h w :
  known_handle h = true ->
  walk_close_handlers h w = Run (Done tt) w (close_procedure h).
Proof.
  unfold known_handle, walk_close_handlers, close_procedure, uv_close.
  destruct (htype h); try discriminate; intros _; simpl;
    try reflexivity.
  destruct (data h); reflexivity.
Qed.

Lemma walk_exact (hs : list uv_handle_t) : forall w,
  forallb known_handle hs = true ->
  uv_walk_handles walk_close_handlers hs w
  = Run (Done tt) w (flat_map close_procedure hs).
Proof.
  induction hs as [|h rest IH]; intros w Hk; simpl in Hk; [reflexivity |].
  apply andb_true_iff in Hk. destruct Hk as [Hh Hrest].
  rewrite walk_cons, (walk_close_exact h w Hh), (IH w Hrest). reflexivity.
Qed.

Lemma close_procedure_calls (hs : list uv_handle_t) :
  forallb known_handle hs = true ->
  forallb is_close_event (flat_map close_procedure hs) = true
  /\ closed_ids (flat_map close_procedure hs) = map hid hs.
Proof.
  intros Hk.
  destruct (walk_known hs {| siri := {| grammar := None; loop := None;
                                       siridb_list := []; fh := None;
                                       optimize := false; heartbeat := false;
                                       cfg := {| default_db_path := "";
                                                 max_open_files := 0 |} |};
                             heap := [] |} Hk)
    as (closes & Hrun & Hc & Hids).
  rewrite walk_exact in Hrun by exact Hk.
  injection Hrun as <-. split; assumption.
Qed.

Lemma close_handlers_exact w l :
  loop (siri w) = Some l ->
  forallb known_handle (handles l) = true ->
  close_handlers w
  = Run (Done tt) w
      (EvUvWalk :: flat_map close_procedure (handles l) ++ [EvUvRun]).
Proof.
  intros Hl Hk.
  unfold close_handlers, uv_walk, with_loop, uv_run. simpl.
  rewrite Hl. simpl. rewrite (walk_exact (handles l) w Hk). reflexivity.
Qed.

Lemma close_events_only (e : event) (closes : list event) :
  forallb is_close_event closes = true ->
  is_close_event e = false ->
  occurrences e closes = 0%nat.
Proof.
  intros Hc He. unfold occurrences.
  induction closes as [|x rest IH]; [reflexivity |].
  simpl in Hc. apply andb_true_iff in Hc. destruct Hc as [Hx Hrest].
  rewrite count_occ_cons_neq by (intros ->; congruence).
  auto.
Qed.

Lemma new_handles_known tds : forall n,
  forallb known_handle (new_handles n tds) = forallb known_type tds.
Proof.
  induction tds as [|td rest IH]; intros n; simpl; [reflexivity |].
  rewrite IH. reflexivity.
Qed.

Lemma new_handles_ids tds : forall n,
  map hid (new_handles n tds) = seq n (length tds).
Proof.
  induction tds as [|td rest IH]; intros n; simpl; [reflexivity |].
  rewrite IH. reflexivity.
Qed.

Lemma new_handles_length tds : forall n,
  length (new_handles n tds) = length tds.
Proof.
  induction tds as [|td rest IH]; intros n; simpl; [reflexivity |].
  rewrite IH. reflexivity.
Qed.

Lemma new_handles_app a b : forall n,
  new_handles n (a ++ b) = new_handles n a ++ new_handles (n + length a) b.
Proof.
  induction a as [|td rest IH]; intros n; simpl.
  - rewrite Nat.add_0_r. reflexivity.
  - rewrite IH. replace (S n + length rest)%nat with (n + S (length rest))%nat
      by lia. reflexivity.
Qed.

End Reactor.

(** ** Properties of the shutdown *)

(** C5.  [walk_close_handlers] chooses the close procedure by the type tag
    of the handle.  A signal handle is closed with no callback.  A TCP
    handle is closed with no callback exactly when its [data] pointer is
    NULL, and with [sirinet_socket_free] otherwise.  A timer is stopped and
    then closed.  An async handle is closed with [free] as callback.  A
    handle of any other type is not closed: an error is logged and
    [assert(0)] fails; with handles of the four types only, that branch is
    never taken. *)
Theorem close_procedure_by_type (h : uv_handle_t) (w : world) :
  let r := walk_close_handlers h w in
  (htype h = UV_SIGNAL -> r = Run (Done tt) w [EvUvClose (hid h) CB_NULL])
  /\ (htype h = UV_TCP ->
      exists cb,
        r = Run (Done tt) w [EvUvClose (hid h) cb]
        /\ (cb = CB_NULL <-> data h = None)
        /\ (cb = CB_sirinet_socket_free <-> data h <> None))
  /\ (htype h = UV_TIMER ->
      r = Run (Done tt) w [EvUvTimerStop (hid h); EvUvClose (hid h) CB_NULL])
  /\ (htype h = UV_ASYNC -> r = Run (Done tt) w [EvUvClose (hid h) CB_free])
  /\ (known_handle h = false ->
      r = Run Aborted w
            [EvLog LOG_ERROR "Oh oh, we need to implement type %d"
               [ArgD (handle_type_code (htype h))];
             EvAssertFail])
  /\ (known_handle h = true ->
      result r = Done tt /\ ~ In EvAssertFail (events r)).
Proof.
  unfold walk_close_handlers, known_handle, uv_close, log.
  repeat apply conj.
  - intros ->. reflexivity.
  - intros ->. destruct (data h) as [payload|]; eexists;
      (split; [reflexivity |]); split; split; intros; congruence.
  - intros ->. reflexivity.
  - intros ->. reflexivity.
  - destruct (htype h); try discriminate; reflexivity.
  - destruct (htype h); try discriminate; intros _; simpl;
      (split; [reflexivity |]); intuition discriminate.
Qed.

Lemma close_procedure_by_type_witness :
  walk_close_handlers {| hid := 4; htype := UV_TCP; data := Some 7%nat |}
    running_world
  = Run (Done tt) running_world [EvUvClose 4 CB_sirinet_socket_free]
  /\ result (walk_close_handlers {| hid := 9; htype := UV_UDP; data := None |}
               running_world) = Aborted.
Proof.
  destruct (close_procedure_by_type
              {| hid := 4; htype := UV_TCP; data := Some 7%nat |} running_world)
    as (_ & Htcp & _).
  destruct (Htcp eq_refl) as (cb & Hrun & _ & Hcb).
  assert (cb = CB_sirinet_socket_free) as -> by (apply Hcb; discriminate).
  destruct (close_procedure_by_type
              {| hid := 9; htype := UV_UDP; data := None |} running_world)
    as (_ & _ & _ & _ & Hother & _).
  split; [exact Hrun |].
  rewrite (Hother eq_refl). reflexivity.
Defined.

(** C6.  In a world with an event loop whose handles are of the four
    types, [signal_handler] returns after making exactly these calls, in
    this order: the cancellation of the optimize task, the cancellation
    of the heart-beat task, [uv_stop], [uv_walk], for each handle of the
    loop in turn the calls of the close procedure of its type, and
    [uv_run].  Each of the five steps is made once, every handle is
    closed once, and the [siri] structure and the instances are left as
    they are.  [uv_stop] thus comes before the [uv_run] of
    [close_handlers], with nothing but the close calls between them. *)
Theorem shutdown_order (w : world) (l : uv_loop_t) (signum : Z) :
  loop (siri w) = Some l ->
  forallb known_handle (handles l) = true ->
  let closes := flat_map close_procedure (handles l) in
  signal_handler signum w
  = Run (Done tt) w
      ([EvLog LOG_DEBUG "Asked SiriDB Server to stop (%d)" [ArgD signum];
        EvOptimizeCancel; EvHeartbeatCancel; EvUvStop; EvUvWalk]
       ++ closes ++ [EvUvRun])
  /\ forallb is_close_event closes = true
  /\ closed_ids closes = map hid (handles l)
  /\ Forall (fun e => occurrences e (events (signal_handler signum w)) = 1%nat)
       [EvOptimizeCancel; EvHeartbeatCancel; EvUvStop; EvUvWalk; EvUvRun].
Proof.
  intros Hl Hk closes.
  destruct (close_procedure_calls (handles l) Hk) as [Hc Hids].
  fold closes in Hc, Hids.
  assert (Hsig : signal_handler signum w
                 = Run (Done tt) w
                     ([EvLog LOG_DEBUG "Asked SiriDB Server to stop (%d)"
                         [ArgD signum];
                       EvOptimizeCancel; EvHeartbeatCancel; EvUvStop; EvUvWalk]
                      ++ closes ++ [EvUvRun])).
  { unfold signal_handler, with_loop, log. simpl. rewrite Hl. simpl.
    rewrite (close_handlers_exact w l Hl Hk). reflexivity. }
  rewrite Hsig. split; [reflexivity |]. split; [exact Hc |].
  split; [exact Hids |].
  cbn [events].
  repeat (apply List.Forall_cons;
          [rewrite occurrences_app, occurrences_app,
             (close_events_only _ closes Hc) by reflexivity;
           reflexivity |]).
  apply List.Forall_nil.
Qed.

Lemma shutdown_order_witness :
  events (signal_handler SIGTERM running_world)
  = [EvLog LOG_DEBUG "Asked SiriDB Server to stop (%d)" [ArgD SIGTERM];
     EvOptimizeCancel; EvHeartbeatCancel; EvUvStop; EvUvWalk;
     EvUvClose 0 CB_NULL; EvUvClose 1 CB_NULL; EvUvClose 2 CB_NULL;
     EvUvClose 3 CB_NULL; EvUvClose 4 CB_sirinet_socket_free;
     EvUvTimerStop 5; EvUvClose 5 CB_NULL;
     EvUvTimerStop 6; EvUvClose 6 CB_NULL;
     EvUvClose 7 CB_free;
     EvUvRun].
Proof.
  destruct (shutdown_order running_world demo_loop SIGTERM eq_refl eq_refl)
    as (Hrun & _).
  rewrite Hrun. reflexivity.
Defined.

(** C9.  [siri_free] returns in every world.  It calls [uv_loop_close]
    once when there is a loop and not at all when [siri.loop] is NULL;
    then, in every case, it frees the loop pointer and the grammar, calls
    [siri_fh_free], and tears the registry down, calling the destructor
    once on every registered instance, in order.  The destructor calls
    depend on the registry only: the instances' reference counts play no
    part. *)
Theorem teardown_always_completes (E : env) (w : world) :
  let r := siri_free E w in
  result r = Done tt
  /\ (loop (siri w) = None -> ~ In EvUvLoopClose (events r))
  /\ (loop (siri w) <> None -> occurrences EvUvLoopClose (events r) = 1%nat)
  /\ (exists closing,
        events r
        = closing
          ++ [EvFree FreeLoop; EvFree FreeGrammar; EvFhFree; EvLlistFreeCb]
          ++ map EvSiridbFreeCb (siridb_list (siri w))
        /\ forallb (fun e => bool_decide (e = EvUvLoopClose) || is_error_log e)
             closing = true)
  /\ (forall instances,
        events (siri_free E {| siri := siri w; heap := instances |}) = events r).
Proof.
  assert (Hwalk : forall l w0,
            llist_walk_free siridb_free_cb l w0
            = Run (Done tt) w0 (map EvSiridbFreeCb l)).
  { induction l as [|p rest IH]; intros w0; [reflexivity |].
    cbn [llist_walk_free]. unfold siridb_free_cb at 1. simpl.
    rewrite IH. reflexivity. }
  set (tail_calls := fun s : siri_t =>
         [EvFree FreeLoop; EvFree FreeGrammar; EvFhFree; EvLlistFreeCb]
         ++ map EvSiridbFreeCb (siridb_list s)).
  assert (Htail : forall s, occurrences EvUvLoopClose (tail_calls s) = 0%nat).
  { intros s. apply count_occ_not_In. subst tail_calls. cbn.
    intros [H|[H|[H|[H|H]]]]; try discriminate.
    apply in_map_iff in H. destruct H as (p & H & _). discriminate. }
  assert (Hfree : forall w0,
            siri_free E w0
            = Run (Done tt) w0
                (match loop (siri w0) with
                 | Some _ =>
                     EvUvLoopClose
                     :: (if uv_loop_close E =? 0 then []
                         else [EvLog LOG_ERROR
                                 "Error occurred while closing the event loop: %d"
                                 [ArgD (uv_loop_close E)]])
                 | None => []
                 end ++ tail_calls (siri w0))).
  { intros w0. unfold siri_free, llist_free_cb, log. simpl.
    destruct (loop (siri w0)) as [l|]; simpl.
    - destruct (uv_loop_close E =? 0); simpl; rewrite Hwalk; reflexivity.
    - rewrite Hwalk. reflexivity. }
  cbv zeta. rewrite Hfree. cbn [result events].
  repeat apply conj.
  - reflexivity.
  - intros ->. cbn [app]. apply (count_occ_not_In event_eq_dec). apply Htail.
  - intros Hsome. destruct (loop (siri w)) as [l|]; [| congruence].
    rewrite occurrences_app, Htail. unfold occurrences.
    rewrite count_occ_cons_eq by reflexivity.
    destruct (uv_loop_close E =? 0); reflexivity.
  - eexists. split; [reflexivity |].
    destruct (loop (siri w)) as [l|]; [| reflexivity].
    destruct (uv_loop_close E =? 0); reflexivity.
  - intros instances. rewrite Hfree. reflexivity.
Qed.

Lemma teardown_always_completes_witness :
  events (siri_free (demo_env true 0 0) running_world)
  = [EvUvLoopClose; EvFree FreeLoop; EvFree FreeGrammar; EvFhFree;
     EvLlistFreeCb; EvSiridbFreeCb 0%nat]
  /\ ~ In EvUvLoopClose (events (siri_free (demo_env true 7 0)
                                   (final (siri_start (demo_env true 7 0)
                                             demo_world)))).
Proof.
  split; [reflexivity |].
  destruct (teardown_always_completes (demo_env true 7 0)
              (final (siri_start (demo_env true 7 0) demo_world)))
    as (_ & Hnone & _).
  apply Hnone. vm_compute. reflexivity.
Defined.

(** ** Start-up *)

Section Startup.

Context (E : env).

Lemma siri_start_unfold w :
  siri_start E w
  = match siridb_load_databases E (started w) with
    | Run (Done rc) w1 evs =>
        if negb (rc =? 0) then Run (Done rc) w1 (startup_calls w ++ evs)
        else
          match siri_start_reactor E w1 with
          | Run res w2 evs2 => Run res w2 (startup_calls w ++ evs ++ evs2)
          end
    | Run Aborted w1 evs => Run Aborted w1 (startup_calls w ++ evs)
    end.
Proof.
  unfold siri_start. simpl. fold (started w).
  destruct (siridb_load_databases E (started w)) as [[rc|] w1 evs]; simpl.
  - destruct (rc =? 0); simpl.
    + destruct (siri_start_reactor E w1); reflexivity.
    + rewrite app_nil_r. reflexivity.
  - reflexivity.
Qed.

Lemma reactor_listener_failure w rc tds :
  failing_listener E = Some (rc, tds) ->
  forallb known_type tds = true ->
  exists (w2 : world) (before closes : list event),
    siri_start_reactor E w
    = Run (Done rc) w2 (before ++ EvUvWalk :: closes ++ [EvUvRun])
    /\ rc <> 0
    /\ forallb (fun e => bool_decide (e = EvUvLoopInit)
                         || bool_decide (e = EvBserverInit)
                         || bool_decide (e = EvClserverInit)
                         || match e with
                            | EvUvSignalInit _ | EvUvSignalStart _ _ => true
                            | _ => false
                            end) before = true
    /\ forallb is_close_event closes = true
    /\ closed_ids closes = seq 0 (3 + length tds)
    /\ loop (siri w2) = Some {| handles := signal_handles ++ new_handles 3 tds |}
    /\ siridb_list (siri w2) = siridb_list (siri w)
    /\ heap w2 = heap w
    /\ optimize (siri w2) = optimize (siri w)
    /\ heartbeat (siri w2) = heartbeat (siri w)
    /\ closes = flat_map close_procedure (signal_handles ++ new_handles 3 tds).
Proof.
  intros Hfail Hk. unfold failing_listener in Hfail.
  unfold siri_start_reactor, set_loop, signals. cbn [bind_signals].
  unfold uv_bind, with_loop, set_loop. simpl.
  erewrite uv_bind_all_run by reflexivity. cbn [handles length app].
  fold signal_handles.
  destruct (negb (fst (sirinet_bserver_init E) =? 0)) eqn:Hb.
  - injection Hfail as <- <-.
    match goal with
    | |- context [with_handles ?hs ?w0] => set (W := with_handles hs w0)
    end.
    assert (Hk' : forallb known_handle
                    (signal_handles
                     ++ new_handles 3 (snd (sirinet_bserver_init E))) = true).
    { rewrite forallb_app, new_handles_known, Hk. reflexivity. }
    pose proof (close_handlers_exact W
                  {| handles := signal_handles
                                ++ new_handles 3 (snd (sirinet_bserver_init E)) |}
                  eq_refl Hk') as Hrun.
    destruct (close_procedure_calls _ Hk') as [Hc Hids].
    cbn [handles] in Hrun.
    cbn [bind]. rewrite Hrun. cbn [ret app].
    exists W, [EvUvLoopInit; EvUvSignalInit 0; EvUvSignalStart 0 SIGINT;
               EvUvSignalInit 1; EvUvSignalStart 1 SIGTERM;
               EvUvSignalInit 2; EvUvSignalStart 2 SIGSEGV; EvBserverInit],
      (flat_map close_procedure
         (signal_handles ++ new_handles 3 (snd (sirinet_bserver_init E)))).
    repeat apply conj; try reflexivity; try assumption.
    + rewrite app_nil_r. reflexivity.
    + apply negb_true_iff, Z.eqb_neq in Hb. exact Hb.
    + rewrite Hids. rewrite map_app, new_handles_ids.
      reflexivity.
  - destruct (negb (fst (sirinet_clserver_init E) =? 0)) eqn:Hcl;
      [| discriminate].
    injection Hfail as <- <-.
    cbn [bind call]. erewrite uv_bind_all_run by reflexivity.
    cbn [handles length app].
    rewrite new_handles_length.
    match goal with
    | |- context [close_handlers ?w0] => set (W := w0)
    end.
    assert (Hk' : forallb known_handle
                    (signal_handles
                     ++ new_handles 3 (snd (sirinet_bserver_init E)
                                       ++ snd (sirinet_clserver_init E))) = true).
    { rewrite forallb_app, new_handles_known, Hk. reflexivity. }
    assert (HW : loop (siri W)
                 = Some {| handles := signal_handles
                                      ++ new_handles 3
                                           (snd (sirinet_bserver_init E)
                                            ++ snd (sirinet_clserver_init E)) |}).
    { subst W. cbn [with_handles siri loop]. rewrite new_handles_app.
      reflexivity. }
    pose proof (close_handlers_exact W _ HW Hk') as Hrun.
    destruct (close_procedure_calls _ Hk') as [Hc Hids].
    cbn [handles] in Hrun.
    cbn [bind]. rewrite Hrun. cbn [ret app].
    exists W, [EvUvLoopInit; EvUvSignalInit 0; EvUvSignalStart 0 SIGINT;
               EvUvSignalInit 1; EvUvSignalStart 1 SIGTERM;
               EvUvSignalInit 2; EvUvSignalStart 2 SIGSEGV; EvBserverInit;
               EvClserverInit],
      (flat_map close_procedure
         (signal_handles
          ++ new_handles 3 (snd (sirinet_bserver_init E)
                            ++ snd (sirinet_clserver_init E)))).
    repeat apply conj; try reflexivity; try assumption.
    + rewrite app_nil_r. reflexivity.
    + apply negb_true_iff, Z.eqb_neq in Hcl. exact Hcl.
    + rewrite Hids. rewrite map_app, new_handles_ids.
      reflexivity.
Qed.


Lemma occurrences_excluded (P : event -> bool) (e : event) (evs : list event) :
  forallb P evs = true -> P e = false -> occurrences e evs = 0%nat.
Proof.
  intros Hall He. unfold occurrences.
  induction evs as [|x rest IH]; [reflexivity |].
  simpl in Hall. apply andb_true_iff in Hall. destruct Hall as [Hx Hrest].
  rewrite count_occ_cons_neq by (intros ->; congruence).
  auto.
Qed.

Lemma bootstrap_not_reactor (evs : list event) :
  forallb is_bootstrap_event evs = true ->
  forallb (fun e => negb (is_reactor_event e)) evs = true.
Proof.
  intros H. rewrite forallb_forall in *. intros e He.
  specialize (H e He). destruct e; try discriminate; reflexivity.
Qed.

End Startup.

(** C2.  Let the base path be there and its stream be [pre], then
    [d_name], then [rest], where no load fails in [pre] and the load of
    [d_name] fails (the entry is a candidate and its configuration or
    metadata does not parse, or one of its loaders returns non-zero).
    Then [siridb_load_databases] logs an error, makes clean-up calls only
    after it, and returns 1; [readdir] has handed out no entry of [rest],
    and the last call of the loader is the one on [d_name].  [siri_start]
    makes no call besides its six initialisations and those of
    [siridb_load_databases], returns that same 1 and leaves [siri.loop] as
    it was: no event loop and no listener has been initialised. *)
Theorem load_failure_is_fatal (E : env) (w0 : world)
    (pre : list string) (d_name : string) (rest : list string) :
  let base := default_db_path (cfg (siri w0)) in
  let r := siridb_load_databases E (started w0) in
  let r0 := siri_start E w0 in
  base_ready E base = true ->
  opendir E base = Some (pre ++ d_name :: rest) ->
  existsb (fails E base) pre = false ->
  fails E base d_name = true ->
  result r = Done 1
  /\ error_then_cleanup (events r) = true
  /\ entries_read (events r) (pre ++ d_name :: rest) = pre ++ [d_name]
  /\ loader_calls (events r)
     = map (conf_path base) (List.filter (candidate E base) pre)
       ++ [conf_path base d_name]
  /\ result r0 = Done 1
  /\ events r0 = startup_calls w0 ++ events r
  /\ final r0 = final r
  /\ loop (siri (final r0)) = loop (siri w0)
  /\ forallb (fun e => negb (is_reactor_event e)) (events r0) = true.
Proof.
  intros base r r0 Hready Hopen Hpre Hd. subst r r0.
  assert (Hex : existsb (fails E base) (pre ++ d_name :: rest) = true).
  { rewrite existsb_app. simpl. rewrite Hd. apply orb_true_r. }
  destruct (load_bootstrap_only E (started w0)) as (Hboot & _ & _ & Hloop).
  rewrite siri_start_unfold.
  assert (Hrun : siridb_load_databases E (started w0)
                 = match siridb_load_databases_loop E (pre ++ d_name :: rest)
                           (started w0) with
                   | Run res w' evs =>
                       Run res w' (preamble E base ++ EvOpendir base :: evs)
                   end).
  { rewrite load_run. cbn [started siri cfg]. fold base.
    rewrite Hready, Hopen. reflexivity. }
  rewrite Hrun in *. clear Hrun.
  destruct (preamble_quiet E base) as (Hpc & Hpo & _).
  pose proof (loop_run E (pre ++ d_name :: rest) (started w0)) as Hl.
  cbv zeta in Hl. cbn [started siri cfg] in Hl. fold base in Hl.
  destruct (siridb_load_databases_loop E (pre ++ d_name :: rest) (started w0))
    as [res w' evs].
  cbn [result final events] in *.
  destruct Hl as (-> & _ & Hc & Hr & _ & He).
  rewrite Hex in *. cbn [negb Z.eqb result final events].
  repeat apply conj; try reflexivity.
  - apply error_then_cleanup_app. simpl. auto.
  - rewrite entries_read_app by exact Hpo.
    unfold entries_read, occurrences in *.
    rewrite count_occ_cons_neq by discriminate. rewrite Hr.
    apply visited_fail_fast; assumption.
  - rewrite loader_calls_app, Hpc. cbn [app].
    change (loader_calls (EvOpendir base :: evs)) with (loader_calls evs).
    rewrite Hc, visited_fail_fast by assumption.
    rewrite List.filter_app, map_app. cbn [List.filter].
    rewrite (fails_candidate E base d_name Hd). reflexivity.
  - exact Hloop.
  - rewrite forallb_app. apply andb_true_iff. split; [reflexivity |].
    apply bootstrap_not_reactor. exact Hboot.
Qed.

Lemma load_failure_is_fatal_witness :
  result (siri_start (demo_env true 7 0) demo_world) = Done 1
  /\ loop (siri (final (siri_start (demo_env true 7 0) demo_world))) = None
  /\ entries_read (events (siridb_load_databases (demo_env true 7 0)
                             (started demo_world)))
       ["."; ".."; "__backup"; "..backup"; ".hidden"; "notes.txt"; "empty";
        "dbtest"; "later"]
     = ["."; ".."; "__backup"; "..backup"; ".hidden"; "notes.txt"; "empty";
        "dbtest"].
Proof.
  destruct (load_failure_is_fatal (demo_env true 7 0) demo_world
              ["."; ".."; "__backup"; "..backup"; ".hidden"; "notes.txt"; "empty"]
              "dbtest" ["later"])
    as (_ & _ & Hread & _ & Hres & _ & _ & Hloop & _);
    try (vm_compute; reflexivity).
  split; [exact Hres | split; [exact Hloop | exact Hread]].
Defined.

(** C7, as stated, fails: when the back-end listener cannot be
    initialised, [siri_start] returns its code after closing the handles
    and running the loop once, and neither periodic task is cancelled. *)
Lemma listener_failure_counterexample :
  let r := siri_start (demo_env true 0 98) demo_world in
  listener_failure_as_stated (demo_env true 0 98) demo_world = false
  /\ result r = Done 98
  /\ occurrences EvOptimizeCancel (events r) = 0%nat
  /\ occurrences EvHeartbeatCancel (events r) = 0%nat
  /\ occurrences EvUvWalk (events r) = 1%nat
  /\ occurrences EvUvRun (events r) = 1%nat.
Proof. vm_compute. repeat split. Qed.

(** C7, amended.  When the databases are loaded and the initialisation of
    a listener (the back-end one, or else the client one) returns a
    non-zero code, the handles bound to the loop so far (the three signal
    watchers and what the listeners bound) being of the four types
    [walk_close_handlers] knows, [siri_start] calls [close_handlers]:
    after [uv_walk], each of these handles is closed in turn by the close
    procedure of its type, and [uv_run] is called once, after the walk.
    [siri_start] then returns the listener's code.  Neither periodic task
    is cancelled or initialised, [uv_stop] is not called, and there is no
    other call of [uv_run]. *)
Theorem listener_failure_closes_handles (E : env) (w : world) (rc : Z)
    (tds : list (uv_handle_type * option nat)) :
  let r := siri_start E w in
  let closes := flat_map close_procedure (signal_handles ++ new_handles 3 tds) in
  result (siridb_load_databases E (started w)) = Done 0 ->
  failing_listener E = Some (rc, tds) ->
  forallb known_type tds = true ->
  exists before,
    events r = before ++ EvUvWalk :: closes ++ [EvUvRun]
    /\ result r = Done rc
    /\ rc <> 0
    /\ forallb is_close_event closes = true
    /\ closed_ids closes = seq 0 (3 + length tds)
    /\ loop (siri (final r))
       = Some {| handles := signal_handles ++ new_handles 3 tds |}
    /\ Forall (fun e => occurrences e (events r) = 0%nat)
         [EvOptimizeCancel; EvHeartbeatCancel; EvUvStop;
          EvOptimizeInit; EvHeartbeatInit]
    /\ occurrences EvUvWalk (events r) = 1%nat
    /\ occurrences EvUvRun (events r) = 1%nat.
Proof.
  intros r closes Hload Hfail Hk. subst r.
  destruct (load_bootstrap_only E (started w)) as (Hboot & _).
  rewrite siri_start_unfold.
  destruct (siridb_load_databases E (started w)) as [res w1 evs].
  cbn [result events] in Hload, Hboot. subst res. cbn [Z.eqb negb].
  destruct (reactor_listener_failure E w1 rc tds Hfail Hk)
    as (w2 & before & closes0 & Hrun & Hrc & Hb & Hc & Hids & Hl & _ & _ & _ & _
        & Hexact).
  fold closes in Hexact. subst closes0.
  rewrite Hrun. cbn [result final events].
  exists (startup_calls w ++ evs ++ before).
  assert (Hzero : forall e,
            is_bootstrap_event e = false ->
            is_close_event e = false ->
            e <> EvUvLoopInit -> e <> EvBserverInit -> e <> EvClserverInit ->
            e <> EvUvWalk -> e <> EvUvRun ->
            (forall h, e <> EvUvSignalInit h) ->
            (forall h s, e <> EvUvSignalStart h s) ->
            In e [EvOptimizeCancel; EvHeartbeatCancel; EvUvStop;
                  EvOptimizeInit; EvHeartbeatInit] ->
            occurrences e (startup_calls w ++ evs ++ before) = 0%nat
            /\ occurrences e closes = 0%nat).
  { intros e He1 He2 H1 H2 H3 H4 H5 H6 H7 Hin. split.
    - rewrite !occurrences_app.
      rewrite (occurrences_excluded _ e evs Hboot He1).
      rewrite (occurrences_excluded _ e before Hb).
      + unfold occurrences, startup_calls.
        rewrite (proj1 (count_occ_not_In event_eq_dec _ e)); [reflexivity |].
        cbn. intros [H|[H|[H|[H|[H|[H|[]]]]]]]; subst e;
          cbn in Hin; intuition discriminate.
      + destruct e; try reflexivity; cbn; exfalso;
          first [congruence | apply (H6 h); reflexivity
                | apply (H7 h signum); reflexivity].
    - apply close_events_only; assumption. }
  assert (Hquiet : forall e,
            In e [EvOptimizeCancel; EvHeartbeatCancel; EvUvStop;
                  EvOptimizeInit; EvHeartbeatInit] ->
            occurrences e
              ((startup_calls w ++ evs ++ before) ++ EvUvWalk :: closes ++ [EvUvRun])
            = 0%nat).
  { intros e Hin.
    destruct (Hzero e) as [Hz1 Hz2]; try assumption;
      try (cbn in Hin; destruct Hin as [<-|[<-|[<-|[<-|[<-|[]]]]]];
           first [reflexivity | discriminate]).
    rewrite occurrences_app, Hz1.
    rewrite occurrences_cons_neq
      by (cbn in Hin; destruct Hin as [<-|[<-|[<-|[<-|[<-|[]]]]]]; discriminate).
    rewrite occurrences_app, Hz2.
    rewrite occurrences_cons_neq
      by (cbn in Hin; destruct Hin as [<-|[<-|[<-|[<-|[<-|[]]]]]]; discriminate).
    reflexivity. }
  assert (Hbefore : forall e,
            e = EvUvWalk \/ e = EvUvRun ->
            occurrences e (startup_calls w ++ evs ++ before) = 0%nat).
  { intros e He. rewrite !occurrences_app.
    rewrite (occurrences_excluded _ e evs Hboot)
      by (destruct He as [->| ->]; reflexivity).
    rewrite (occurrences_excluded _ e before Hb)
      by (destruct He as [->| ->]; reflexivity).
    destruct He as [->| ->]; reflexivity. }
  replace (startup_calls w ++ evs ++ before ++ EvUvWalk :: closes ++ [EvUvRun])
    with ((startup_calls w ++ evs ++ before) ++ EvUvWalk :: closes ++ [EvUvRun])
    by (rewrite <- !app_assoc; reflexivity).
  repeat apply conj; try assumption.
  - reflexivity.
  - reflexivity.
  - repeat (apply List.Forall_cons; [apply Hquiet; cbn; tauto |]). apply List.Forall_nil.
  - rewrite occurrences_app, Hbefore by auto.
    rewrite occurrences_cons_eq, occurrences_app.
    rewrite (close_events_only EvUvWalk closes Hc) by reflexivity.
    reflexivity.
  - rewrite occurrences_app, Hbefore by auto.
    rewrite occurrences_cons_neq by discriminate.
    rewrite occurrences_app.
    rewrite (close_events_only EvUvRun closes Hc) by reflexivity.
    reflexivity.
Qed.

Lemma listener_failure_closes_handles_witness :
  result (siri_start (demo_env true 0 98) demo_world) = Done 98
  /\ occurrences EvOptimizeCancel (events (siri_start (demo_env true 0 98) demo_world))
     = 0%nat.
Proof.
  destruct (listener_failure_closes_handles (demo_env true 0 98) demo_world 98 [])
    as (before & _ & Hres & _ & _ & _ & _ & Hq & _);
    try (vm_compute; reflexivity).
  split; [exact Hres |].
  inversion Hq as [|e l Hopt _]. exact Hopt.
Defined.

(** ** Further properties: what the scan opens, it closes *)

Lemma count_if_app (P : event -> bool) (a b : list event) :
  count_if P (a ++ b) = (count_if P a + count_if P b)%nat.
Proof. unfold count_if. rewrite List.filter_app, length_app. reflexivity. Qed.

Lemma tallies_app (a b : list event) :
  tallies (a ++ b) = zip_with Nat.add (tallies a) (tallies b).
Proof. unfold tallies. cbn [map zip_with]. rewrite !count_if_app. reflexivity. Qed.

Lemma tallies_cons (e : event) (evs : list event) :
  tallies (e :: evs)
  = zip_with Nat.add
      (map (fun P : event -> bool => Nat.b2n (P e))
         [is_closedir; is_cfgparser_new; is_cfgparser_free; is_unpacker_open;
          is_unpacker_free; is_llist_append; is_incref; is_opendir])
      (tallies evs).
Proof.
  unfold tallies, count_if. cbn [map zip_with List.filter].
  repeat match goal with
  | |- context [if ?P e then _ else _] => destruct (P e)
  end; reflexivity.
Qed.

Section Tallies.

Context (E : env).

Lemma stages_tally s h db :
  tallies (events (siridb_load_databases_stages E (length h)
                     {| siri := s; heap := h ++ [db] |}))
  = [if loaders_ok E db then 0 else 1; 0; 0; 0; 0; 0; 0; 0]%nat.
Proof.
  unfold siridb_load_databases_stages, load_stage, read_siridb,
    modify_siridb, log, loaders_ok.
  step_heap.
  repeat match goal with
  | |- context [if ?b =? 0 then _ else _] =>
      destruct (b =? 0); step_heap
  end; reflexivity.
Qed.

Lemma registered_tally base d_name cfgparser s h db :
  tallies (events (siridb_load_databases_registered E base d_name cfgparser
                     (length h) {| siri := s; heap := h ++ [db] |}))
  = [if loaders_ok E (configured E base d_name cfgparser db) then 0 else 1;
     0; 1; 0; 0; 0; 0; 0]%nat.
Proof.
  unfold siridb_load_databases_registered, read_siridb, modify_siridb, log.
  step_heap.
  assert (Hcfg :
    (let '(rc, option) := cfgparser_get_option E cfgparser "buffer" "buffer_path" in
     set_buffer_path
       (if bool_decide (rc = CFGPARSER_SUCCESS)
           && bool_decide (tp option = CFGPARSER_TP_STRING)
        then match option with OptString s0 => Some s0 | _ => None end
        else Some (db_path base d_name))
       (set_dbpath (Some (db_path base d_name)) db))
    = configured E base d_name cfgparser db).
  { unfold configured.
    destruct (cfgparser_get_option E cfgparser "buffer" "buffer_path")
      as [[|c] [z|z|z]]; reflexivity. }
  destruct (cfgparser_get_option E cfgparser "buffer" "buffer_path") as [rc o].
  step_heap. rewrite Hcfg.
  pose proof (stages_tally s h (configured E base d_name cfgparser db)) as Hst.
  destruct (siridb_load_databases_stages E (length h)
              {| siri := s; heap := h ++ [configured E base d_name cfgparser db] |})
    as [res w' evs].
  cbn [events] in *.
  rewrite !tallies_cons, Hst.
  destruct (loaders_ok E (configured E base d_name cfgparser db)); reflexivity.
Qed.

Lemma pipeline_tally base d_name w :
  match parse_metadata E base d_name with
  | None =>
      exists q : nat,
        tallies (events (siridb_load_databases_pipeline E base d_name
                           (conf_path base d_name) w))
        = [1; 1; 1; q; q; 0; 0; 0]%nat
  | Some db =>
      tallies (events (siridb_load_databases_pipeline E base d_name
                         (conf_path base d_name) w))
      = [if loaders_ok E (at_stages E base d_name db) then 0 else 1;
         1; 1; 1; 1; 1; 1; 0]%nat
  end.
Proof.
  unfold siridb_load_databases_pipeline, parse_metadata, log, modify_siridb.
  destruct w as [s h]. simpl.
  destruct (bool_decide (cfgparser_read E (conf_path base d_name) = CFGPARSER_SUCCESS));
    simpl; [| exists 0%nat; reflexivity].
  destruct (qp_from_file_unpacker E (dat_path base d_name)) as [u|];
    simpl; [| exists 1%nat; reflexivity].
  destruct (siridb_from_unpacker E u) as [msg|db];
    simpl; [exists 1%nat; reflexivity |].
  rewrite alter_last.
  pose proof (registered_tally base d_name {| cfg_source := conf_path base d_name |}
                (llist_append (length h) s) h (incref db)) as Hr.
  fold (at_stages E base d_name db) in Hr.
  destruct (siridb_load_databases_registered E base d_name
              {| cfg_source := conf_path base d_name |} (length h)
              {| siri := llist_append (length h) s; heap := h ++ [incref db] |})
    as [res w' evs].
  cbn [events] in *.
  rewrite !tallies_cons, Hr.
  destruct (loaders_ok E (at_stages E base d_name db)); reflexivity.
Qed.

Lemma entry_tally d_name w :
  let base := default_db_path (cfg (siri w)) in
  exists q : nat,
    tallies (events (siridb_load_databases_entry E d_name w))
    = [if fails E base d_name then 1 else 0;
       if candidate E base d_name then 1 else 0;
       if candidate E base d_name then 1 else 0;
       q; q;
       match verdict_of E base d_name with Registered _ _ => 1 | _ => 0 end;
       match verdict_of E base d_name with Registered _ _ => 1 | _ => 0 end;
       0]%nat.
Proof.
  unfold siridb_load_databases_entry, fails, verdict_of, candidate, is_directory.
  destruct (skip_name d_name); simpl; [exists 0%nat; reflexivity |].
  destruct (fstatat E d_name) as [m|]; simpl; [| exists 0%nat; reflexivity].
  destruct (S_ISDIR m); simpl; [| exists 0%nat; reflexivity].
  destruct (access_R_OK E (conf_path (default_db_path (cfg (siri w))) d_name));
    simpl; [| exists 0%nat; reflexivity].
  pose proof (pipeline_tally (default_db_path (cfg (siri w))) d_name w) as Hp.
  destruct (siridb_load_databases_pipeline E (default_db_path (cfg (siri w)))
              d_name (conf_path (default_db_path (cfg (siri w))) d_name) w)
    as [res w' evs].
  cbn [events] in *.
  destruct (parse_metadata E (default_db_path (cfg (siri w))) d_name) as [db|].
  - exists 1%nat. rewrite !tallies_cons, Hp.
    simpl.
    destruct (loaders_ok E (at_stages E (default_db_path (cfg (siri w))) d_name db));
      reflexivity.
  - destruct Hp as [q Hq]. exists q.
    rewrite !tallies_cons, Hq. reflexivity.
Qed.

Lemma loop_tally stream : forall w,
  let base := default_db_path (cfg (siri w)) in
  exists q : nat,
    tallies (events (siridb_load_databases_loop E stream w))
    = [1; length (List.filter (candidate E base) (visited E base stream));
       length (List.filter (candidate E base) (visited E base stream));
       q; q;
       length (allocated E base stream); length (allocated E base stream); 0]%nat.
Proof.
  induction stream as [|d_name rest IH]; intros w base.
  - exists 0%nat. reflexivity.
  - rewrite loop_cons.
    pose proof (entry_run E d_name w) as He. cbv zeta in He. fold base in He.
    destruct (entry_tally d_name w) as [q1 Hq1]. fold base in Hq1.
    destruct (siridb_load_databases_entry E d_name w) as [res w1 evs1].
    cbn [result final events] in *.
    destruct He as (-> & -> & _).
    cbn [visited allocated List.filter].
    unfold fails in *.
    destruct (entry_result (verdict_of E base d_name)) as [rc|] eqn:Hres.
    + exists q1. cbn [events]. rewrite app_nil_r, tallies_cons, Hq1.
      rewrite app_nil_r.
      destruct (candidate E base d_name);
        destruct (verdict_of E base d_name); reflexivity.
    + specialize (IH (world_after (verdict_of E base d_name) w)).
      cbv zeta in IH. rewrite world_after_cfg in IH. fold base in IH.
      destruct IH as [q2 Hq2].
      destruct (siridb_load_databases_loop E rest
                  (world_after (verdict_of E base d_name) w)) as [res2 w2 evs2].
      cbn [events] in *.
      exists (q1 + q2)%nat.
      rewrite tallies_cons, tallies_app, Hq1, Hq2.
      rewrite length_app.
      destruct (candidate E base d_name);
        destruct (verdict_of E base d_name); reflexivity.
Qed.

(** The state the scan reaches: the heap and the registry only grow, by
    the instances allocated, and nothing else of [siri] changes. *)
Lemma world_after_all_shape base stream : forall w,
  let w' := world_after_all E base stream w in
  heap w' = heap w ++ allocated E base stream
  /\ siridb_list (siri w')
     = siridb_list (siri w)
       ++ seq (length (heap w)) (length (allocated E base stream))
  /\ same_globals (siri w) (siri w').
Proof.
  induction stream as [|d_name rest IH]; intros w; cbn [world_after_all allocated].
  - cbn. rewrite !app_nil_r. repeat split.
  - assert (Hone : let w1 := world_after (verdict_of E base d_name) w in
              let new := match verdict_of E base d_name with
                         | Registered db _ => [db]
                         | _ => []
                         end in
              heap w1 = heap w ++ new
              /\ siridb_list (siri w1)
                 = siridb_list (siri w) ++ seq (length (heap w)) (length new)
              /\ same_globals (siri w) (siri w1)).
    { destruct (verdict_of E base d_name) as [| |db ok]; cbn;
        rewrite ?app_nil_r; repeat split. }
    cbv zeta in Hone. destruct Hone as (Hh & Hl & Hg).
    destruct (fails E base d_name).
    + rewrite app_nil_r. auto.
    + destruct (IH (world_after (verdict_of E base d_name) w)) as (Hh2 & Hl2 & Hg2).
      rewrite Hh2, Hl2, Hh, Hl. rewrite !length_app, seq_app, <- !app_assoc.
      repeat split; try reflexivity;
        destruct Hg as (? & ? & ? & ? & ? & ?);
        destruct Hg2 as (? & ? & ? & ? & ? & ?); congruence.
Qed.

Lemma load_tally w :
  let base := default_db_path (cfg (siri w)) in
  let r := siridb_load_databases E w in
  exists n q a : nat,
    tallies (events r)
    = [if base_ready E base
       then match opendir E base with Some _ => 1 | None => 0 end else 0;
       n; n; q; q; a; a; if base_ready E base then 1 else 0]%nat
    /\ n = length (loader_calls (events r))
    /\ heap (final r) = heap w ++ skipn (length (heap w)) (heap (final r))
    /\ a = length (skipn (length (heap w)) (heap (final r)))
    /\ siridb_list (siri (final r))
       = siridb_list (siri w) ++ seq (length (heap w)) a
    /\ same_globals (siri w) (siri (final r)).
Proof.
  intros base r. subst r. rewrite load_run. fold base.
  assert (Hself : heap w = heap w ++ skipn (length (heap w)) (heap w)).
  { rewrite skipn_all. rewrite app_nil_r. reflexivity. }
  assert (Hpre : tallies (preamble E base) = [0; 0; 0; 0; 0; 0; 0; 0]%nat
                 /\ loader_calls (preamble E base) = []).
  { unfold preamble. destruct (stat_ok E base); split; reflexivity. }
  destruct Hpre as [Hpt Hpc].
  destruct (base_ready E base).
  - destruct (opendir E base) as [stream|].
    + pose proof (loop_run E stream w) as Hl. cbv zeta in Hl. fold base in Hl.
      destruct (loop_tally stream w) as [q Hq]. fold base in Hq.
      destruct (siridb_load_databases_loop E stream w) as [res w' evs].
      cbn [result final events] in *.
      destruct Hl as (_ & -> & Hc & _).
      destruct (world_after_all_shape base stream w) as (Hh & Hs & Hg).
      exists (length (List.filter (candidate E base) (visited E base stream))),
        q, (length (allocated E base stream)).
      rewrite tallies_app, tallies_cons, Hpt, Hq, loader_calls_app, Hpc.
      change (loader_calls (EvOpendir base :: evs)) with (loader_calls evs).
      cbn [app]. rewrite Hc, length_map, Hh, Hs.
      rewrite skipn_app, skipn_all, Nat.sub_diag. cbn [skipn app].
      repeat split; try reflexivity; apply Hg.
    + exists 0%nat, 0%nat, 0%nat. cbn [result final events].
      rewrite tallies_app, Hpt, loader_calls_app, Hpc, skipn_all.
      rewrite !app_nil_r. repeat split.
  - exists 0%nat, 0%nat, 0%nat. cbn [result final events].
    rewrite tallies_app, Hpt, loader_calls_app, Hpc, skipn_all.
    rewrite !app_nil_r. repeat split.
Qed.

End Tallies.

Lemma tallies_read (evs : list event) (c n1 n2 q1 q2 a1 a2 o : nat) :
  tallies evs = [c; n1; n2; q1; q2; a1; a2; o] ->
  count_if is_closedir evs = c
  /\ count_if is_cfgparser_new evs = n1
  /\ count_if is_cfgparser_free evs = n2
  /\ count_if is_unpacker_open evs = q1
  /\ count_if is_unpacker_free evs = q2
  /\ count_if is_llist_append evs = a1
  /\ count_if is_incref evs = a2
  /\ count_if is_opendir evs = o.
Proof.
  unfold tallies. cbn [map]. intros H.
  injection H as <- <- <- <- <- <- <- <-. repeat split.
Qed.

(** X1.  [siridb_load_databases] calls [opendir] at most once.  When the
    directory is opened, [closedir] is called exactly once, on every
    path: at the end of the stream, or before the [return 1] of whichever
    stage fails.  When the base path can neither be found nor created, or
    cannot be opened, the call returns 1 without any [readdir] or
    [closedir], and leaves the state as it was. *)
Theorem directory_stream_closed_once (E : env) (w : world) :
  let base := default_db_path (cfg (siri w)) in
  let r := siridb_load_databases E w in
  (count_if is_opendir (events r) <= 1)%nat
  /\ (forall stream,
        base_ready E base = true -> opendir E base = Some stream ->
        count_if is_opendir (events r) = 1%nat
        /\ count_if is_closedir (events r) = 1%nat)
  /\ (base_ready E base = false \/ opendir E base = None ->
      result r = Done 1 /\ final r = w
      /\ count_if is_closedir (events r) = 0%nat
      /\ occurrences EvReaddir (events r) = 0%nat
      /\ error_then_cleanup (events r) = true).
Proof.
  intros base r. subst r.
  destruct (load_tally E w) as (n & q & a & Ht & _). fold base in Ht.
  apply tallies_read in Ht. destruct Ht as (Hc & _ & _ & _ & _ & _ & _ & Ho).
  repeat apply conj.
  - rewrite Ho. destruct (base_ready E base); lia.
  - intros stream Hr Hs. rewrite Hc, Ho, Hr, Hs. auto.
  - intros Hno. rewrite Hc.
    rewrite load_run. fold base.
    destruct (preamble_quiet E base) as (_ & Hpo & _).
    assert (Hpe : forall tail,
              error_then_cleanup tail = true ->
              error_then_cleanup (preamble E base ++ tail) = true)
      by (intros; apply error_then_cleanup_app; assumption).
    destruct (base_ready E base).
    + destruct Hno as [Hno|Hno]; [discriminate |]. rewrite Hno.
      cbn [result final events]. rewrite occurrences_app, Hpo.
      repeat split. apply Hpe. reflexivity.
    + cbn [result final events]. rewrite occurrences_app, Hpo.
      repeat split. apply Hpe. reflexivity.
Qed.

Lemma directory_stream_closed_once_witness :
  result (siridb_load_databases (demo_env true 7 0) demo_world) = Done 1
  /\ count_if is_closedir
       (events (siridb_load_databases (demo_env true 7 0) demo_world)) = 1%nat.
Proof.
  destruct (directory_stream_closed_once (demo_env true 7 0) demo_world)
    as (_ & H & _).
  destruct (H ["."; ".."; "__backup"; "..backup"; ".hidden"; "notes.txt";
               "empty"; "dbtest"; "later"] eq_refl eq_refl) as [_ Hc].
  split; [vm_compute; reflexivity | exact Hc].
Defined.

(** X2.  On every path of [siridb_load_databases], each [cfgparser_new]
    is matched by one [cfgparser_free] and each [qp_from_file_unpacker]
    by one [qp_free_unpacker]; there is one parser per call of the
    loader. *)
Theorem parsers_and_unpackers_released (E : env) (w : world) :
  let evs := events (siridb_load_databases E w) in
  count_if is_cfgparser_new evs = length (loader_calls evs)
  /\ count_if is_cfgparser_free evs = count_if is_cfgparser_new evs
  /\ count_if is_unpacker_free evs = count_if is_unpacker_open evs.
Proof.
  intros evs. subst evs.
  destruct (load_tally E w) as (n & q & a & Ht & Hn & _).
  apply tallies_read in Ht.
  destruct Ht as (_ & Hn1 & Hn2 & Hq1 & Hq2 & _).
  rewrite Hn1, Hn2, Hq1, Hq2, <- Hn. repeat split.
Qed.

(** X3.  [siridb_load_databases] only adds to the heap and to the
    registry: the instances that were there stay as they were, the
    registry grows by the pointers of the new instances, in the order of
    their allocation, [llist_append] and [siridb_incref] are called once
    for each, and nothing else of the [siri] structure changes.  A
    registry whose pointers are in the heap and distinct stays so. *)
Theorem registry_grows_by_fresh_instances (E : env) (w : world) :
  let r := siridb_load_databases E w in
  exists news : list siridb_t,
    heap (final r) = heap w ++ news
    /\ siridb_list (siri (final r))
       = siridb_list (siri w) ++ seq (length (heap w)) (length news)
    /\ count_if is_llist_append (events r) = length news
    /\ count_if is_incref (events r) = length news
    /\ same_globals (siri w) (siri (final r))
    /\ (registry_wf w -> registry_wf (final r)).
Proof.
  intros r. subst r.
  destruct (load_tally E w) as (n & q & a & Ht & _ & Hh & Ha & Hl & Hg).
  apply tallies_read in Ht.
  destruct Ht as (_ & _ & _ & _ & _ & Ha1 & Ha2 & _).
  exists (skipn (length (heap w)) (heap (final (siridb_load_databases E w)))).
  rewrite <- Ha.
  split; [exact Hh |]. split; [exact Hl |]. split; [exact Ha1 |].
  split; [exact Ha2 |]. split; [exact Hg |].
  intros [Hnd Hin]. unfold registry_wf. rewrite Hl, Hh, length_app, <- Ha.
  split.
  - apply NoDup_app. repeat split.
    + exact Hnd.
    + intros p Hp Hq.
      rewrite Forall_forall in Hin. specialize (Hin p Hp).
      apply list_elem_of_In, in_seq in Hq. lia.
    + apply NoDup_ListNoDup, List.seq_NoDup.
  - apply Forall_app. split.
    + eapply Forall_impl; [exact Hin |]. intros p Hp. simpl in Hp. lia.
    + apply Forall_forall. intros p Hp.
      apply list_elem_of_In, in_seq in Hp. lia.
Qed.

Lemma registry_grows_by_fresh_instances_witness :
  registry_wf (final (siridb_load_databases (demo_env true 7 0) demo_world)).
Proof.
  destruct (registry_grows_by_fresh_instances (demo_env true 7 0) demo_world)
    as (news & _ & _ & _ & _ & _ & Hwf).
  apply Hwf. split; [apply NoDup_nil_2 | apply List.Forall_nil].
Defined.

Section Allocation.

Context (E : env).

Lemma dbpath_at_stages base d_name db :
  dbpath (finished E (at_stages E base d_name db)) = Some (db_path base d_name).
Proof.
  unfold finished, at_stages, configured.
  destruct (loaders_ok E _);
    destruct (cfgparser_get_option E {| cfg_source := conf_path base d_name |}
                "buffer" "buffer_path") as [[|c] [z|z|z]]; reflexivity.
Qed.

(** When no load fails, every candidate gives one finished instance. *)
Lemma allocated_all_loaded base stream :
  existsb (fails E base) stream = false ->
  map dbpath (allocated E base stream)
  = map (fun d_name => Some (db_path base d_name))
      (List.filter (candidate E base) stream)
  /\ Forall (fun inst => 0 <= start_ts inst < 2 ^ 32)
       (allocated E base stream).
Proof.
  induction stream as [|d_name rest IH]; cbn [existsb allocated List.filter map].
  - intros _. split; [reflexivity | apply List.Forall_nil].
  - intros H. apply orb_false_iff in H. destruct H as [Hd Hrest].
    destruct (IH Hrest) as [IHp IHs]. rewrite Hd.
    unfold fails, verdict_of in *.
    destruct (candidate E base d_name); [| cbn [app]; auto].
    destruct (parse_metadata E base d_name) as [db|]; [| discriminate].
    cbv zeta in *. cbn [entry_result] in Hd.
    destruct (loaders_ok E (at_stages E base d_name db)) eqn:Hok; [| discriminate].
    cbn [app map]. rewrite IHp, dbpath_at_stages. split; [reflexivity |].
    apply List.Forall_cons; [| exact IHs].
    unfold finished. rewrite Hok. cbn [start_ts set_start_ts].
    apply Z.mod_pos_bound. reflexivity.
Qed.

Lemma visited_app base pre post :
  existsb (fails E base) pre = false ->
  visited E base (pre ++ post) = pre ++ visited E base post.
Proof.
  induction pre as [|x pre IH]; cbn [existsb visited app]; [reflexivity |].
  intros H. apply orb_false_iff in H. destruct H as [Hx Hpre].
  rewrite Hx, IH by exact Hpre. reflexivity.
Qed.

Lemma world_after_all_app base pre post : forall w,
  existsb (fails E base) pre = false ->
  world_after_all E base (pre ++ post) w
  = world_after_all E base post (world_after_all E base pre w).
Proof.
  induction pre as [|x pre IH]; intros w; cbn [existsb world_after_all app];
    [reflexivity |].
  intros H. apply orb_false_iff in H. destruct H as [Hx Hpre].
  rewrite Hx. apply IH. exact Hpre.
Qed.

End Allocation.

(** X4.  When [siridb_load_databases] returns 0, the heap has grown by
    one instance for each candidate of the directory stream (the entries
    that pass the tests of lines 126-148), in the order of the stream;
    the [dbpath] of each is the path formatted at lines 198-202 for its
    entry, each is in the registry, and the [start_ts] of each, a clock
    reading cast to [uint32_t], is a value from 0 to 2^32 - 1. *)
Theorem one_instance_per_candidate (E : env) (w : world) (stream : list string) :
  let base := default_db_path (cfg (siri w)) in
  let r := siridb_load_databases E w in
  opendir E base = Some stream ->
  result r = Done 0 ->
  exists news : list siridb_t,
    heap (final r) = heap w ++ news
    /\ siridb_list (siri (final r))
       = siridb_list (siri w) ++ seq (length (heap w)) (length news)
    /\ map dbpath news
       = map (fun d_name => Some (db_path base d_name))
           (List.filter (candidate E base) stream)
    /\ Forall (fun inst => 0 <= start_ts inst < 2 ^ 32) news.
Proof.
  intros base r Hopen Hres. subst r.
  rewrite load_run in *. fold base in Hres |- *.
  destruct (base_ready E base); [| discriminate].
  rewrite Hopen in *.
  pose proof (loop_run E stream w) as Hl. cbv zeta in Hl. fold base in Hl.
  destruct (siridb_load_databases_loop E stream w) as [res w' evs].
  cbn [result final events] in *.
  destruct Hl as (Hr & -> & _). rewrite Hr in Hres.
  assert (Hnf : existsb (fails E base) stream = false)
    by (destruct (existsb (fails E base) stream); [discriminate | reflexivity]).
  destruct (world_after_all_shape E base stream w) as (Hh & Hs & _).
  destruct (allocated_all_loaded E base stream Hnf) as (Hp & Ht).
  exists (allocated E base stream).
  split; [exact Hh |]. split; [exact Hs |]. split; [exact Hp |].
  exact Ht.
Qed.

Lemma one_instance_per_candidate_witness :
  map dbpath (heap (final (siridb_load_databases (demo_env true 0 0) demo_world)))
  = [Some "/var/lib/siridb/.hidden/"; Some "/var/lib/siridb/dbtest/";
     Some "/var/lib/siridb/later/"].
Proof.
  assert (Hzero : result (siridb_load_databases (demo_env true 0 0) demo_world)
                  = Done 0) by (vm_compute; reflexivity).
  destruct (one_instance_per_candidate (demo_env true 0 0) demo_world
              ["."; ".."; "__backup"; "..backup"; ".hidden"; "notes.txt";
               "empty"; "dbtest"; "later"] eq_refl Hzero)
    as (news & Hh & _ & Hp & _).
  rewrite Hh. cbn [heap demo_world app]. rewrite Hp. vm_compute. reflexivity.
Defined.

(** X5.  The scan composes: when no load fails among the first entries of
    a stream, scanning the whole stream ends with the result and in the
    state of scanning the rest from the state the first entries lead to,
    and the loader is called on the candidates of the first part, then on
    those of the rest. *)
Theorem scan_composes (E : env) (w : world) (pre post : list string) :
  let base := default_db_path (cfg (siri w)) in
  let r1 := siridb_load_databases_loop E pre w in
  let r2 := siridb_load_databases_loop E post (final r1) in
  let r := siridb_load_databases_loop E (pre ++ post) w in
  existsb (fails E base) pre = false ->
  result r1 = Done 0
  /\ result r = result r2
  /\ final r = final r2
  /\ loader_calls (events r) = loader_calls (events r1) ++ loader_calls (events r2).
Proof.
  intros base r1 r2 r Hpre. subst r1 r2 r.
  pose proof (loop_run E pre w) as H1.
  pose proof (loop_run E (pre ++ post) w) as H.
  cbv zeta in H1, H. fold base in H1, H.
  destruct H1 as (Hr1 & Hf1 & Hc1 & _). destruct H as (Hr & Hf & Hc & _).
  rewrite Hf1.
  pose proof (loop_run E post (world_after_all E base pre w)) as H2.
  cbv zeta in H2.
  destruct (world_after_all_keeps E base pre w) as [Hcfg _].
  rewrite Hcfg in H2. fold base in H2.
  destruct H2 as (Hr2 & Hf2 & Hc2 & _).
  rewrite Hr1, Hr, Hf, Hc, Hr2, Hf2, Hc1, Hc2, Hpre.
  rewrite existsb_app, Hpre, visited_app, (visited_all E base pre Hpre) by exact Hpre.
  rewrite world_after_all_app by exact Hpre.
  rewrite List.filter_app, map_app.
  repeat split.
Qed.

Lemma scan_composes_witness :
  result (siridb_load_databases_loop (demo_env true 7 0)
            (["."; ".."; "__backup"; "..backup"; ".hidden"; "notes.txt"; "empty"]
             ++ ["dbtest"; "later"]) demo_world)
  = Done 1.
Proof.
  assert (Hpre : existsb (fails (demo_env true 7 0)
                            (default_db_path (cfg (siri demo_world))))
                    ["."; ".."; "__backup"; "..backup"; ".hidden"; "notes.txt";
                     "empty"] = false) by (vm_compute; reflexivity).
  destruct (scan_composes (demo_env true 7 0) demo_world
              ["."; ".."; "__backup"; "..backup"; ".hidden"; "notes.txt"; "empty"]
              ["dbtest"; "later"] Hpre) as (_ & Hr & _).
  rewrite Hr. vm_compute. reflexivity.
Defined.

(** ** Further properties: the event loop *)

Section ReactorFurther.

Context (E : env).

Lemma walk_close_unknown h w :
  known_handle h = false ->
  walk_close_handlers h w
  = Run Aborted w
      [EvLog LOG_ERROR "Oh oh, we need to implement type %d"
         [ArgD (handle_type_code (htype h))];
       EvAssertFail].
Proof.
  unfold known_handle, walk_close_handlers, log.
  destruct (htype h); try discriminate; reflexivity.
Qed.

Lemma walk_until_unknown pre h rest w :
  forallb known_handle pre = true ->
  known_handle h = false ->
  exists closes,
    uv_walk_handles walk_close_handlers (pre ++ h :: rest) w
    = Run Aborted w
        (closes
         ++ [EvLog LOG_ERROR "Oh oh, we need to implement type %d"
               [ArgD (handle_type_code (htype h))];
             EvAssertFail])
    /\ forallb is_close_event closes = true
    /\ closed_ids closes = map hid pre.
Proof.
  intros Hpre Hh. induction pre as [|x pre IH]; cbn [app].
  - exists []. rewrite walk_cons, (walk_close_unknown h w Hh). repeat split.
  - simpl in Hpre. apply andb_true_iff in Hpre. destruct Hpre as [Hx Hpre].
    destruct (IH Hpre) as (closes & Hrun & Hc & Hids).
    destruct (walk_close_known x w Hx) as (evs & Hx1 & Hx2 & Hx3).
    rewrite walk_cons, Hx1, Hrun.
    exists (evs ++ closes). rewrite <- app_assoc. repeat split.
    + rewrite forallb_app, Hx2, Hc. reflexivity.
    + unfold closed_ids in *. rewrite omap_app, Hx3, Hids. reflexivity.
Qed.

(** The walk never changes the state, whatever the handles. *)
Lemma walk_final hs : forall w,
  final (uv_walk_handles walk_close_handlers hs w) = w.
Proof.
  induction hs as [|h rest IH]; intros w; [reflexivity |].
  rewrite walk_cons.
  assert (Hh : exists res evs, walk_close_handlers h w = Run res w evs).
  { unfold walk_close_handlers, uv_close, log.
    destruct (htype h); simpl; eauto. }
  destruct Hh as (res & evs & ->). destruct res as [[]|]; [| reflexivity].
  specialize (IH w).
  destruct (uv_walk_handles walk_close_handlers rest w). exact IH.
Qed.

Lemma close_handlers_final w l :
  loop (siri w) = Some l -> final (close_handlers w) = w.
Proof.
  intros Hl. unfold close_handlers, uv_walk, with_loop, uv_run. simpl.
  rewrite Hl. simpl.
  pose proof (walk_final (handles l) w) as Hf.
  destruct (uv_walk_handles walk_close_handlers (handles l) w) as [[[]|] w1 evs];
    simpl in *; exact Hf.
Qed.

Lemma signal_handler_run w l signum :
  loop (siri w) = Some l ->
  signal_handler signum w
  = match close_handlers w with
    | Run res w1 evs =>
        Run res w1
          ([EvLog LOG_DEBUG "Asked SiriDB Server to stop (%d)" [ArgD signum];
            EvOptimizeCancel; EvHeartbeatCancel; EvUvStop] ++ evs)
    end.
Proof.
  intros Hl. unfold signal_handler, with_loop, log. simpl. rewrite Hl. simpl.
  destruct (close_handlers w). reflexivity.
Qed.



(** Whatever happens, the reactor part of [siri_start] leaves the
    registry and the instances alone. *)
Lemma reactor_frame w :
  siridb_list (siri (final (siri_start_reactor E w))) = siridb_list (siri w)
  /\ heap (final (siri_start_reactor E w)) = heap w.
Proof.
  unfold siri_start_reactor, set_loop, signals. cbn [bind_signals].
  unfold uv_bind, with_loop, set_loop. simpl.
  erewrite uv_bind_all_run by reflexivity. cbn [handles length app].
  destruct (negb (fst (sirinet_bserver_init E) =? 0)).
  - cbn [bind].
    match goal with
    | |- context [close_handlers ?w0] =>
        pose proof (close_handlers_final w0 _ eq_refl) as Hf;
        destruct (close_handlers w0) as [[[]|] w1 evs]
    end; simpl in *; subst w1; split; reflexivity.
  - cbn [bind call].
    erewrite uv_bind_all_run by reflexivity. cbn [handles length app].
    destruct (negb (fst (sirinet_clserver_init E) =? 0)).
    + cbn [bind].
      match goal with
      | |- context [close_handlers ?w0] =>
          pose proof (close_handlers_final w0 _ eq_refl) as Hf;
          destruct (close_handlers w0) as [[[]|] w1 evs]
      end; simpl in *; subst w1; split; reflexivity.
    + cbn [bind call].
      erewrite uv_bind_all_run by reflexivity. cbn [handles length app].
      erewrite uv_bind_all_run by reflexivity. cbn [handles length app].
      simpl. split; reflexivity.
Qed.

Lemma llist_walk_free_run (l : list ptr) : forall w,
  llist_walk_free siridb_free_cb l w = Run (Done tt) w (map EvSiridbFreeCb l).
Proof.
  induction l as [|p rest IH]; intros w; [reflexivity |].
  cbn [llist_walk_free]. unfold siridb_free_cb at 1. simpl.
  rewrite IH. reflexivity.
Qed.

Lemma siri_free_run w :
  result (siri_free E w) = Done tt
  /\ final (siri_free E w) = w
  /\ destroyed (events (siri_free E w)) = siridb_list (siri w)
  /\ occurrences EvUvLoopClose (events (siri_free E w))
     = match loop (siri w) with Some _ => 1 | None => 0 end%nat.
Proof.
  assert (Hd : forall l, destroyed (map EvSiridbFreeCb l) = l).
  { induction l as [|p l IH]; [reflexivity |].
    cbn. unfold destroyed in IH. rewrite IH. reflexivity. }
  assert (Ho : forall l, occurrences EvUvLoopClose (map EvSiridbFreeCb l) = 0%nat).
  { intros l. apply count_occ_not_In. intros H.
    apply in_map_iff in H. destruct H as (p & H & _). discriminate. }
  unfold siri_free, llist_free_cb, log. simpl.
  destruct (loop (siri w)) as [l|]; simpl;
    [destruct (uv_loop_close E =? 0); simpl |];
    rewrite llist_walk_free_run; simpl;
    (split; [reflexivity |]); (split; [reflexivity |]);
    (split; [cbn; apply Hd |]);
    repeat first [ rewrite occurrences_cons_eq
                 | rewrite occurrences_cons_neq by discriminate ];
    rewrite Ho; reflexivity.
Qed.

End ReactorFurther.

(** ** Further properties: start-up, shut-down and tear-down together *)

(** X6.  When the loop holds a handle of a type [walk_close_handlers] has
    no case for, the shut-down stops there: the handles before it are
    closed, in order, the type is logged, the assertion fails, and
    neither the handles after it are closed nor [uv_run] is called. *)
Theorem unknown_handle_stops_shutdown (w : world) (l : uv_loop_t) (signum : Z)
    (pre rest : list uv_handle_t) (h : uv_handle_t) :
  loop (siri w) = Some l ->
  handles l = pre ++ h :: rest ->
  forallb known_handle pre = true ->
  known_handle h = false ->
  let r := signal_handler signum w in
  result r = Aborted
  /\ final r = w
  /\ closed_ids (events r) = map hid pre
  /\ occurrences EvUvRun (events r) = 0%nat
  /\ exists before,
       events r
       = before
         ++ [EvLog LOG_ERROR "Oh oh, we need to implement type %d"
               [ArgD (handle_type_code (htype h))];
             EvAssertFail].
Proof.
  intros Hl Hhs Hpre Hh r.
  destruct (walk_until_unknown pre h rest w Hpre Hh) as (closes & Hrun & Hc & Hids).
  assert (Hr : r = Run Aborted w
                 ([EvLog LOG_DEBUG "Asked SiriDB Server to stop (%d)" [ArgD signum];
                   EvOptimizeCancel; EvHeartbeatCancel; EvUvStop; EvUvWalk]
                  ++ closes
                  ++ [EvLog LOG_ERROR "Oh oh, we need to implement type %d"
                        [ArgD (handle_type_code (htype h))];
                      EvAssertFail])).
  { subst r. rewrite (signal_handler_run w l signum Hl).
    unfold close_handlers, uv_walk, with_loop, uv_run. simpl.
    rewrite Hl. simpl. rewrite Hhs, Hrun. simpl. reflexivity. }
  rewrite Hr. cbn [result final events].
  split; [reflexivity |]. split; [reflexivity |].
  split.
  { unfold closed_ids in *. rewrite !omap_app, Hids. simpl.
    rewrite app_nil_r. reflexivity. }
  split.
  { rewrite !occurrences_app, (close_events_only _ closes Hc) by reflexivity.
    reflexivity. }
  eexists. rewrite app_assoc. reflexivity.
Qed.

Lemma unknown_handle_stops_shutdown_witness :
  result (signal_handler SIGINT stray_world) = Aborted
  /\ closed_ids (events (signal_handler SIGINT stray_world)) = [0%nat].
Proof.
  destruct (unknown_handle_stops_shutdown stray_world stray_loop SIGINT
              [{| hid := 0; htype := UV_SIGNAL; data := None |}]
              [{| hid := 2; htype := UV_TCP; data := None |}]
              {| hid := 1; htype := UV_UDP; data := None |}
              eq_refl eq_refl eq_refl eq_refl)
    as (Hres & _ & Hids & _).
  split; [exact Hres | exact Hids].
Defined.





(** X9.  Whatever the outcome of [siri_start] - the databases loaded, a
    database failed to load, a listener failed - the instances it
    allocated are exactly the ones [siri_free] afterwards hands to the
    destructor, each once and in the order of allocation: an instance
    left partially loaded by a failing load is among them, and none is
    lost or destroyed twice. *)
Theorem start_up_instances_destroyed (E : env) (w : world) :
  let r := siri_start E w in
  let f := siri_free E (final r) in
  result f = Done tt
  /\ (length (heap w) <= length (heap (final r)))%nat
  /\ firstn (length (heap w)) (heap (final r)) = heap w
  /\ destroyed (events f)
     = seq (length (heap w)) (length (heap (final r)) - length (heap w)).
Proof.
  intros r f.
  assert (Hb : exists a,
             heap (final (siridb_load_databases E (started w)))
             = heap w ++ a
             /\ siridb_list (siri (final (siridb_load_databases E (started w))))
                = seq (length (heap w)) (length a)).
  { destruct (load_tally E (started w)) as (n & q & a & _ & _ & Hheap & Ha & Hreg & _).
    cbv zeta in Hheap, Ha, Hreg. cbn [started heap siri siridb_list app] in Hheap, Ha, Hreg.
    eexists. split; [exact Hheap |]. rewrite Hreg, Ha. reflexivity. }
  destruct Hb as (a & Hheap & Hreg).
  assert (Hr : heap (final r) = heap w ++ a
               /\ siridb_list (siri (final r)) = seq (length (heap w)) (length a)).
  { subst r. rewrite siri_start_unfold.
    destruct (siridb_load_databases E (started w)) as [[rc|] w1 evs];
      cbn [final] in Hheap, Hreg.
    - destruct (negb (rc =? 0)); [split; assumption |].
      destruct (reactor_frame E w1) as [Hl Hh].
      destruct (siri_start_reactor E w1) as [res w2 evs2].
      cbn [final] in *. rewrite Hl, Hh. split; assumption.
    - split; assumption. }
  destruct Hr as [Hrh Hrl].
  destruct (siri_free_run E (final r)) as (Hfres & _ & Hdestr & _).
  subst f. rewrite Hdestr, Hrl, Hrh, length_app.
  split; [exact Hfres |].
  split; [lia |].
  split; [rewrite firstn_app, Nat.sub_diag, firstn_all; cbn [firstn];
          apply app_nil_r |].
  f_equal. lia.
Qed.

(** ** Further properties: what the scan looks at *)

Lemma probes_app (a b : list event) :
  probes (a ++ b) = probes a ++ probes b.
Proof. apply List.filter_app. Qed.

Section Probes.

Context (E : env).

Lemma stages_probes s h db :
  probes (events (siridb_load_databases_stages E (length h)
                    {| siri := s; heap := h ++ [db] |})) = [].
Proof.
  unfold siridb_load_databases_stages, load_stage, read_siridb,
    modify_siridb, log.
  step_heap.
  repeat match goal with
  | |- context [if ?b =? 0 then _ else _] =>
      destruct (b =? 0); step_heap
  end; reflexivity.
Qed.

Lemma registered_probes base d_name cfgparser s h db :
  probes (events (siridb_load_databases_registered E base d_name cfgparser
                    (length h) {| siri := s; heap := h ++ [db] |})) = [].
Proof.
  unfold siridb_load_databases_registered, read_siridb, modify_siridb, log.
  step_heap.
  destruct (cfgparser_get_option E cfgparser "buffer" "buffer_path") as [rc o].
  step_heap.
  match goal with
  | |- context [siridb_load_databases_stages E (length h)
                  {| siri := ?s0; heap := h ++ [?db0] |}] =>
      pose proof (stages_probes s0 h db0) as Hst;
      destruct (siridb_load_databases_stages E (length h)
                  {| siri := s0; heap := h ++ [db0] |}) as [res w' evs]
  end.
  cbn [events] in *. cbn. exact Hst.
Qed.

Lemma pipeline_probes base d_name w :
  probes (events (siridb_load_databases_pipeline E base d_name
                    (conf_path base d_name) w)) = [].
Proof.
  unfold siridb_load_databases_pipeline, log, modify_siridb.
  destruct w as [s h]. simpl.
  destruct (bool_decide (cfgparser_read E (conf_path base d_name) = CFGPARSER_SUCCESS));
    simpl; [| reflexivity].
  destruct (qp_from_file_unpacker E (dat_path base d_name)) as [u|];
    simpl; [| reflexivity].
  destruct (siridb_from_unpacker E u) as [msg|db]; simpl; [reflexivity |].
  rewrite alter_last.
  pose proof (registered_probes base d_name {| cfg_source := conf_path base d_name |}
                (llist_append (length h) s) h (incref db)) as Hr.
  destruct (siridb_load_databases_registered E base d_name
              {| cfg_source := conf_path base d_name |} (length h)
              {| siri := llist_append (length h) s; heap := h ++ [incref db] |})
    as [res w' evs].
  cbn [events] in *. cbn. exact Hr.
Qed.

Lemma entry_probes d_name w :
  probes (events (siridb_load_databases_entry E d_name w))
  = probes_of E (default_db_path (cfg (siri w))) d_name.
Proof.
  unfold siridb_load_databases_entry, probes_of, is_directory.
  destruct (skip_name d_name); simpl; [reflexivity |].
  destruct (fstatat E d_name) as [m|]; simpl; [| reflexivity].
  destruct (S_ISDIR m); simpl; [| reflexivity].
  destruct (access_R_OK E (conf_path (default_db_path (cfg (siri w))) d_name));
    simpl; [| reflexivity].
  pose proof (pipeline_probes (default_db_path (cfg (siri w))) d_name w) as Hp.
  destruct (siridb_load_databases_pipeline E (default_db_path (cfg (siri w)))
              d_name (conf_path (default_db_path (cfg (siri w))) d_name) w)
    as [res w' evs].
  cbn [events] in *. unfold probes in *. cbn [List.filter is_probe].
  rewrite Hp. reflexivity.
Qed.

Lemma loop_probes stream : forall w,
  probes (events (siridb_load_databases_loop E stream w))
  = flat_map (probes_of E (default_db_path (cfg (siri w))))
      (visited E (default_db_path (cfg (siri w))) stream).
Proof.
  induction stream as [|d_name rest IH]; intros w; [reflexivity |].
  rewrite loop_cons.
  pose proof (entry_run E d_name w) as He. cbv zeta in He.
  pose proof (entry_probes d_name w) as Hq.
  destruct (siridb_load_databases_entry E d_name w) as [res w1 evs1].
  cbn [result final events] in *.
  destruct He as (-> & -> & _).
  cbn [visited flat_map]. unfold fails.
  destruct (entry_result (verdict_of E (default_db_path (cfg (siri w))) d_name))
    as [rc|] eqn:Hres.
  - cbn [events flat_map]. rewrite !app_nil_r.
    change (probes (EvReaddir :: evs1)) with (probes evs1). exact Hq.
  - specialize (IH (world_after (verdict_of E (default_db_path (cfg (siri w))) d_name) w)).
    rewrite world_after_cfg in IH.
    destruct (siridb_load_databases_loop E rest
                (world_after (verdict_of E (default_db_path (cfg (siri w))) d_name) w))
      as [res2 w2 evs2].
    cbn [events] in *.
    change (probes (EvReaddir :: evs1 ++ evs2)) with (probes (evs1 ++ evs2)).
    rewrite probes_app, Hq, IH. reflexivity.
Qed.

End Probes.

(** X10.  The scan looks at an entry from outside only as far as lines
    126-148 need: for each entry it reads, in order, it calls [fstatat]
    once unless the name fails the test of lines 126-130, and then
    [access], on the entry's database.conf, once if the entry is a
    directory.  Entries named ".", or beginning with ".." or "__", are
    never passed to [fstatat]; files are never probed for a
    database.conf; entries after a failing load are not looked at. *)
Theorem scan_probes (E : env) (w : world) (stream : list string) :
  let base := default_db_path (cfg (siri w)) in
  let r := siridb_load_databases E w in
  base_ready E base = true ->
  opendir E base = Some stream ->
  probes (events r) = flat_map (probes_of E base) (visited E base stream)
  /\ (forall d_name,
        In (EvFstatat d_name) (events r) ->
        In d_name (visited E base stream) /\ skip_name d_name = false)
  /\ (forall path,
        In (EvAccess path) (events r) ->
        exists d_name,
          In d_name (visited E base stream) /\ skip_name d_name = false
          /\ is_directory E d_name = true /\ path = conf_path base d_name).
Proof.
  intros base r Hready Hopen.
  assert (Hp : probes (events r) = flat_map (probes_of E base) (visited E base stream)).
  { subst r. rewrite load_run. fold base. rewrite Hready, Hopen.
    pose proof (loop_probes E stream w) as Hl. fold base in Hl.
    destruct (siridb_load_databases_loop E stream w) as [res w' evs].
    cbn [events] in *. rewrite probes_app.
    change (probes (EvOpendir base :: evs)) with (probes evs).
    rewrite Hl. unfold preamble. destruct (stat_ok E base); reflexivity. }
  assert (Hin : forall e, is_probe e = true -> In e (events r) ->
                  exists d_name, In d_name (visited E base stream)
                                 /\ In e (probes_of E base d_name)).
  { intros e He Hine.
    assert (Hf : In e (probes (events r)))
      by (apply List.filter_In; split; assumption).
    rewrite Hp in Hf. apply in_flat_map in Hf. exact Hf. }
  split; [exact Hp |]. split.
  - intros d_name Hine.
    destruct (Hin (EvFstatat d_name) eq_refl Hine) as (d & Hv & Hd).
    unfold probes_of in Hd. destruct (skip_name d) eqn:Hsd; [destruct Hd |].
    destruct Hd as [Hd|Hd].
    + injection Hd as <-. split; assumption.
    + destruct (is_directory E d); [destruct Hd as [Hd|[]] | destruct Hd];
        discriminate.
  - intros path Hine.
    destruct (Hin (EvAccess path) eq_refl Hine) as (d & Hv & Hd).
    unfold probes_of in Hd. destruct (skip_name d) eqn:Hsd; [destruct Hd |].
    destruct Hd as [Hd|Hd]; [discriminate |].
    destruct (is_directory E d) eqn:Hdd; [| destruct Hd].
    destruct Hd as [Hd|[]]. injection Hd as <-.
    exists d. repeat split; assumption.
Qed.

Lemma scan_probes_witness :
  probes (events (siridb_load_databases (demo_env true 7 0) demo_world))
  = [EvFstatat ".hidden"; EvAccess "/var/lib/siridb/.hidden/database.conf";
     EvFstatat "notes.txt";
     EvFstatat "empty"; EvAccess "/var/lib/siridb/empty/database.conf";
     EvFstatat "dbtest"; EvAccess "/var/lib/siridb/dbtest/database.conf"].
Proof.
  destruct (scan_probes (demo_env true 7 0) demo_world
              ["."; ".."; "__backup"; "..backup"; ".hidden"; "notes.txt";
               "empty"; "dbtest"; "later"] eq_refl eq_refl) as (Hp & _).
  rewrite Hp. vm_compute. reflexivity.
Defined.

(** ** Further properties: formatted paths *)

Lemma substring_length_le (s : string) : forall n,
  (String.length (substring 0 n s) <= n)%nat.
Proof.
  induction s as [|c s IH]; intros [|n]; cbn [substring String.length]; try lia.
  specialize (IH n). lia.
Qed.

Lemma substring_length_exact (s : string) : forall n,
  (n <= String.length s)%nat -> String.length (substring 0 n s) = n.
Proof.
  induction s as [|c s IH]; intros [|n] H; cbn [substring String.length] in *;
    try lia.
  rewrite IH by lia. reflexivity.
Qed.

Lemma substring_append (s t : string) : forall n,
  (n <= String.length s)%nat -> substring 0 n (s +:+ t) = substring 0 n s.
Proof.
  induction s as [|c s IH]; intros [|n] H; cbn [String.length] in H.
  - destruct t; reflexivity.
  - lia.
  - reflexivity.
  - change (String c s +:+ t) with (String c (s +:+ t)).
    cbn [substring]. rewrite IH by lia. reflexivity.
Qed.

Lemma snprintf_cut (size : nat) (s t : string) :
  (size - 1 <= String.length s)%nat ->
  snprintf size (s +:+ t) = substring 0 (size - 1) s.
Proof. intros H. unfold snprintf. apply substring_append. exact H. Qed.

(** X11.  The three paths formatted into the [PATH_MAX] buffer never
    hold more than [PATH_MAX - 1] characters.  When the base path and the
    entry's name together already fill the buffer, the suffixes are cut
    off altogether: the path checked with [access] and read as
    database.conf, the path read as database.dat and the [dbpath] of the
    instance are one and the same string, the first [PATH_MAX - 1]
    characters of base path and name, without a closing "/" of the
    format's. *)
Theorem long_paths_are_cut (base d_name : string) :
  ((String.length (conf_path base d_name) <= PATH_MAX - 1)%nat
   /\ (String.length (dat_path base d_name) <= PATH_MAX - 1)%nat
   /\ (String.length (db_path base d_name) <= PATH_MAX - 1)%nat)
  /\ ((PATH_MAX - 1 <= String.length (base +:+ d_name))%nat ->
      conf_path base d_name = substring 0 (PATH_MAX - 1) (base +:+ d_name)
      /\ dat_path base d_name = conf_path base d_name
      /\ db_path base d_name = conf_path base d_name
      /\ String.length (db_path base d_name) = (PATH_MAX - 1)%nat).
Proof.
  split.
  - unfold conf_path, dat_path, db_path, snprintf.
    split; [apply substring_length_le |].
    split; apply substring_length_le.
  - intros Hlong. unfold conf_path, dat_path, db_path.
    rewrite <- !append_assoc, !(snprintf_cut PATH_MAX (base +:+ d_name)) by exact Hlong.
    split; [reflexivity |]. split; [reflexivity |]. split; [reflexivity |].
    apply substring_length_exact. exact Hlong.
Qed.

Lemma long_paths_are_cut_witness :
  dat_path "/" (long_name 4095) = conf_path "/" (long_name 4095)
  /\ db_path "/" (long_name 4095) = conf_path "/" (long_name 4095).
Proof.
  assert (Hlong : (PATH_MAX - 1 <= String.length ("/" +:+ long_name 4095))%nat)
    by (apply Nat.leb_le; vm_compute; reflexivity).
  destruct (long_paths_are_cut "/" (long_name 4095)) as [_ H].
  destruct (H Hlong) as (_ & Hdat & Hdb & _).
  split; [exact Hdat | exact Hdb].
Defined.

(** ** Further properties: the name test *)

(** X12.  The name test of lines 126-130 skips exactly three kinds of
    names: ".", the names that begin with ".." and the names that begin
    with "__".  For a skipped name the loop body does nothing at all: no
    call, no change of state.  The empty name and a one-character name
    other than "." pass the test. *)
Theorem name_test_characterised (E : env) (w : world) (d_name : string) :
  (skip_name d_name = true
   <-> d_name = "." \/ String.prefix ".." d_name = true
       \/ String.prefix "__" d_name = true)
  /\ (skip_name d_name = true ->
      siridb_load_databases_entry E d_name w = Run (Done None) w [])
  /\ ((String.length d_name < 2)%nat -> d_name <> "." -> skip_name d_name = false).
Proof.
  split; [apply skip_name_spec |]. split.
  - intros Hs. unfold siridb_load_databases_entry. rewrite Hs. reflexivity.
  - intros Hlen Hne. apply skip_name_false.
    split; [exact Hne |].
    assert (Hno : forall a b, String.prefix (String a (String b "")) d_name = false).
    { intros a b.
      destruct (String.prefix (String a (String b "")) d_name) eqn:Hp;
        [| reflexivity].
      apply prefix_two in Hp. destruct Hp as [rest ->].
      cbn [String.length] in Hlen. lia. }
    split; apply Hno.
Qed.

Lemma name_test_characterised_witness :
  siridb_load_databases_entry (demo_env true 0 0) "__backup" demo_world
  = Run (Done None) demo_world []
  /\ skip_name "_" = false.
Proof.
  destruct (name_test_characterised (demo_env true 0 0) demo_world "__backup")
    as (_ & Hskip & _).
  destruct (name_test_characterised (demo_env true 0 0) demo_world "_")
    as (_ & _ & Hpass).
  split.
  - apply Hskip. reflexivity.
  - apply Hpass; [cbn; lia | discriminate].
Defined.

(** ** Further properties: the logger set-up *)

Section LoggerLevel.

Context (strx_lower_case : string -> string).

Lemma strcmp_same_length (a : string) : forall b,
  strlen a = strlen b -> (strcmp a b = 0 <-> a = b).
Proof.
  unfold strlen.
  induction a as [|c a IH]; intros [|d b] Hlen; cbn [String.length] in Hlen;
    try discriminate; cbn [strcmp].
  - split; reflexivity.
  - destruct (Ascii.eqb c d) eqn:Hcd.
    + apply Ascii.eqb_eq in Hcd. subst d.
      rewrite IH by lia. split; [intros ->; reflexivity | intros H; injection H; auto].
    + split.
      * intros H. pose proof (byte_diff c d Hcd) as Hd.
        apply Z.eqb_neq in Hd. contradiction.
      * intros H. injection H as -> _. rewrite Ascii.eqb_refl in Hcd. discriminate.
Qed.

Lemma level_test (level lname : string) :
  (strlen lname =? strlen level)%nat && (strcmp level lname =? 0) = true
  <-> lname = level.
Proof.
  rewrite andb_true_iff, Nat.eqb_eq, Z.eqb_eq. split.
  - intros [Hlen Hcmp]. symmetry. apply strcmp_same_length; [symmetry |]; assumption.
  - intros ->. split; [reflexivity |]. apply strcmp_same_length; reflexivity.
Qed.

Lemma level_found (level : string) (pre : list string) (name : string)
    (post : list string) : forall n,
  Forall (fun x => strx_lower_case x <> level) pre ->
  strx_lower_case name = level ->
  SetupLogger.siri_setup_logger_level strx_lower_case level n (pre ++ name :: post)
  = (Z.of_nat (n + length pre) + 1) * 10.
Proof.
  induction pre as [|x pre IH]; intros n Hpre Hname;
    cbn [app SetupLogger.siri_setup_logger_level length].
  - apply level_test in Hname. rewrite Hname, Nat.add_0_r. reflexivity.
  - apply List.Forall_cons_iff in Hpre. destruct Hpre as [Hx Hpre].
    destruct ((strlen (strx_lower_case x) =? strlen level)%nat
              && (strcmp level (strx_lower_case x) =? 0)) eqn:Ht.
    + apply level_test in Ht. contradiction.
    + rewrite IH by assumption. f_equal. lia.
Qed.

Lemma level_missing (level : string) (names : list string) : forall n,
  Forall (fun x => strx_lower_case x <> level) names ->
  SetupLogger.siri_setup_logger_level strx_lower_case level n names = 10.
Proof.
  induction names as [|x names IH]; intros n Hall;
    cbn [SetupLogger.siri_setup_logger_level]; [reflexivity |].
  apply List.Forall_cons_iff in Hall. destruct Hall as [Hx Hall].
  destruct ((strlen (strx_lower_case x) =? strlen level)%nat
            && (strcmp level (strx_lower_case x) =? 0)) eqn:Ht.
  - apply level_test in Ht. contradiction.
  - apply IH. exact Hall.
Qed.

Lemma level_range (level : string) (names : list string) : forall n,
  let v := SetupLogger.siri_setup_logger_level strx_lower_case level n names in
  v = 10
  \/ exists k, (n <= k < n + length names)%nat /\ v = (Z.of_nat k + 1) * 10.
Proof.
  induction names as [|x names IH]; intros n;
    cbn [SetupLogger.siri_setup_logger_level length]; [left; reflexivity |].
  destruct ((strlen (strx_lower_case x) =? strlen level)%nat
            && (strcmp level (strx_lower_case x) =? 0)).
  - right. exists n. split; [lia | reflexivity].
  - destruct (IH (S n)) as [H|(k & Hk & H)]; [left; exact H |].
    right. exists k. split; [lia | exact H].
Qed.

End LoggerLevel.

(** X13.  [siri_setup_logger] calls [logger_init] exactly once.  The
    level it passes is ten times the position, counted from 1, of the
    first name of the level table whose lower-cased form is the
    configured [log_level]: the comparison is exact and in lower case.
    When no name of the table matches, the level is 10, that of the
    first name.  The level is always a multiple of ten between 10 and ten
    times the size of the table. *)
Theorem logger_level_from_table (DEBUG : bool) (LOGGER_FLAG_COLORED : Z)
    (LOGGER_LEVEL_NAMES : list string) (strx_lower_case : string -> string)
    (args : SetupLogger.siri_args_t) (Logger : SetupLogger.logger_t) :
  forallb (fun name => (strlen name <? 255)%nat) LOGGER_LEVEL_NAMES = true ->
  let Logger' :=
    SetupLogger.siri_setup_logger DEBUG LOGGER_FLAG_COLORED LOGGER_LEVEL_NAMES
      strx_lower_case args Logger in
  exists level,
    SetupLogger.initialised Logger' = SetupLogger.initialised Logger ++ [level]
    /\ (forall pre name post,
          LOGGER_LEVEL_NAMES = pre ++ name :: post ->
          Forall (fun x => strx_lower_case x <> SetupLogger.log_level args) pre ->
          strx_lower_case name = SetupLogger.log_level args ->
          level = (Z.of_nat (length pre) + 1) * 10)
    /\ (Forall (fun x => strx_lower_case x <> SetupLogger.log_level args)
          LOGGER_LEVEL_NAMES ->
        level = 10)
    /\ 10 <= level <= Z.max 1 (Z.of_nat (length LOGGER_LEVEL_NAMES)) * 10
    /\ level mod 10 = 0.
Proof.
  intros _ Logger'.
  exists (SetupLogger.siri_setup_logger_level strx_lower_case
            (SetupLogger.log_level args) 0 LOGGER_LEVEL_NAMES).
  split.
  { subst Logger'. unfold SetupLogger.siri_setup_logger.
    destruct (DEBUG || negb (SetupLogger.log_colorized args =? 0)); reflexivity. }
  split.
  { intros pre name post -> Hpre Hname.
    rewrite (level_found strx_lower_case _ pre name post 0%nat Hpre Hname).
    reflexivity. }
  split; [apply level_missing |].
  destruct (level_range strx_lower_case (SetupLogger.log_level args)
              LOGGER_LEVEL_NAMES 0%nat) as [->|(k & Hk & ->)].
  - split; [lia | reflexivity].
  - split; [lia |]. apply Z.mod_mul. lia.
Qed.

Lemma logger_level_from_table_witness :
  SetupLogger.initialised
    (SetupLogger.siri_setup_logger false 1 demo_level_names lower_case
       {| SetupLogger.log_level := "warning"; SetupLogger.log_colorized := 0 |}
       {| SetupLogger.flags := 0; SetupLogger.initialised := [] |})
  = [30].
Proof.
  destruct (logger_level_from_table false 1 demo_level_names lower_case
              {| SetupLogger.log_level := "warning"; SetupLogger.log_colorized := 0 |}
              {| SetupLogger.flags := 0; SetupLogger.initialised := [] |} eq_refl)
    as (level & Hinit & Hfound & _).
  rewrite Hinit.
  rewrite (Hfound ["DEBUG"; "INFO"] "WARNING" ["ERROR"; "CRITICAL"] eq_refl).
  - reflexivity.
  - apply List.Forall_cons; [intros H; vm_compute in H; discriminate |].
    apply List.Forall_cons; [intros H; vm_compute in H; discriminate |].
    apply List.Forall_nil.
  - vm_compute. reflexivity.
Defined.

(** X14.  [siri_setup_logger] only ever sets bits of [Logger.flags]: in a
    build with [DEBUG], or when [log_colorized] is non-zero, the colour
    flag is set afterwards and every flag set before stays set; otherwise
    the flags are left as they were.  Setting the logger up a second time
    does not change the flags again. *)
Theorem logger_colour_flag (DEBUG : bool) (LOGGER_FLAG_COLORED : Z)
    (LOGGER_LEVEL_NAMES : list string) (strx_lower_case : string -> string)
    (args : SetupLogger.siri_args_t) (Logger : SetupLogger.logger_t) :
  let setup :=
    SetupLogger.siri_setup_logger DEBUG LOGGER_FLAG_COLORED LOGGER_LEVEL_NAMES
      strx_lower_case args in
  (forall i, Z.testbit (SetupLogger.flags Logger) i = true ->
             Z.testbit (SetupLogger.flags (setup Logger)) i = true)
  /\ (DEBUG = true \/ SetupLogger.log_colorized args <> 0 ->
      Z.land (SetupLogger.flags (setup Logger)) LOGGER_FLAG_COLORED
      = LOGGER_FLAG_COLORED)
  /\ (DEBUG = false -> SetupLogger.log_colorized args = 0 ->
      SetupLogger.flags (setup Logger) = SetupLogger.flags Logger)
  /\ SetupLogger.flags (setup (setup Logger)) = SetupLogger.flags (setup Logger).
Proof.
  intros setup. subst setup. unfold SetupLogger.siri_setup_logger.
  destruct DEBUG; cbn [orb].
  - cbn [SetupLogger.flags].
    split; [intros i Hi; rewrite Z.lor_spec, Hi; reflexivity |].
    split; [intros _; apply Z.bits_inj'; intros n _;
            rewrite Z.land_spec, Z.lor_spec;
            destruct (Z.testbit (SetupLogger.flags Logger) n);
            destruct (Z.testbit LOGGER_FLAG_COLORED n); reflexivity |].
    split; [discriminate |].
    rewrite <- Z.lor_assoc, Z.lor_diag. reflexivity.
  - destruct (SetupLogger.log_colorized args =? 0) eqn:Hc; cbn [negb SetupLogger.flags].
    + apply Z.eqb_eq in Hc.
      split; [auto |]. split; [intros [H|H]; [discriminate | contradiction] |].
      split; reflexivity.
    + split; [intros i Hi; rewrite Z.lor_spec, Hi; reflexivity |].
      split; [intros _; apply Z.bits_inj'; intros n _;
              rewrite Z.land_spec, Z.lor_spec;
              destruct (Z.testbit (SetupLogger.flags Logger) n);
              destruct (Z.testbit LOGGER_FLAG_COLORED n); reflexivity |].
      split; [intros _ H; apply Z.eqb_neq in Hc; contradiction |].
      rewrite <- Z.lor_assoc, Z.lor_diag. reflexivity.
Qed.

Lemma logger_colour_flag_witness :
  Z.land
    (SetupLogger.flags
       (SetupLogger.siri_setup_logger false 1 demo_level_names lower_case
          {| SetupLogger.log_level := "info"; SetupLogger.log_colorized := 1 |}
          {| SetupLogger.flags := 4; SetupLogger.initialised := [] |}))
    1 = 1.
Proof.
  destruct (logger_colour_flag false 1 demo_level_names lower_case
              {| SetupLogger.log_level := "info"; SetupLogger.log_colorized := 1 |}
              {| SetupLogger.flags := 4; SetupLogger.initialised := [] |})
    as (_ & Hset & _).
  apply Hset. right. discriminate.
Defined.

(** ** Further properties: the loaders of one instance *)

(** X15.  The six loaders of an instance are called in the order users,
    servers, series, buffer load, buffer open, shards, each at most once
    and each only if all before it returned zero.  When one fails, the
    directory is closed, the result is 1 and the instance is left as it
    was: no pools are generated and no start time is set.  When all six
    succeed, the pools are generated, the series properties updated and
    the time read, in this order, and the loop body ends without a
    result. *)
Theorem loaders_stop_at_first_failure (E : env) (s : siri_t)
    (h : list siridb_t) (db : siridb_t) :
  let p := length h in
  let r := siridb_load_databases_stages E p {| siri := s; heap := h ++ [db] |} in
  List.filter is_stage_call (events r) = until_failure (stage_calls_of E p db)
  /\ (loaders_ok E db = false ->
      result r = Done (Some 1)
      /\ final r = {| siri := s; heap := h ++ [db] |}
      /\ List.filter is_completion (events r) = []
      /\ count_if is_closedir (events r) = 1%nat)
  /\ (loaders_ok E db = true ->
      result r = Done None
      /\ final r
         = {| siri := s; heap := h ++ [set_start_ts (time E mod 2 ^ 32) db] |}
      /\ List.filter is_completion (events r)
         = [EvPoolsGen p; EvImap32Walk p; EvTime]
      /\ count_if is_closedir (events r) = 0%nat).
Proof.
  unfold siridb_load_databases_stages, load_stage, read_siridb,
    modify_siridb, log, loaders_ok, stage_calls_of.
  cbn [until_failure].
  step_heap.
  repeat match goal with
  | |- context [if ?b =? 0 then _ else _] =>
      destruct (b =? 0); step_heap
  end;
    (split; [reflexivity |]);
    (split; [intros H; try discriminate H; repeat split
            | intros H; try discriminate H; repeat split]).
Qed.

Lemma loaders_stop_at_first_failure_witness :
  List.filter is_stage_call
    (events (siridb_load_databases_stages (demo_env true 7 0) 0%nat
               {| siri := siri demo_world;
                  heap := [fresh_db "/var/lib/siridb/dbtest/database.dat"] |}))
  = [EvUsersLoad 0%nat]
  /\ List.filter is_completion
       (events (siridb_load_databases_stages (demo_env true 7 0) 0%nat
                  {| siri := siri demo_world;
                     heap := [fresh_db "/var/lib/siridb/dbtest/database.dat"] |}))
     = [].
Proof.
  destruct (loaders_stop_at_first_failure (demo_env true 7 0) (siri demo_world) []
              (fresh_db "/var/lib/siridb/dbtest/database.dat"))
    as (Hcalls & Hfail & _).
  split.
  - exact Hcalls.
  - destruct (Hfail eq_refl) as (_ & _ & Hnone & _). exact Hnone.
Defined.

(** ** Further properties: the stop flag and the close callbacks *)

Lemma reactor_after_app (iterate : reactor -> reactor) (a b : list event) r :
  reactor_after iterate (a ++ b) r
  = reactor_after iterate b (reactor_after iterate a r).
Proof. apply fold_left_app. Qed.

Lemma reactor_after_closes (iterate : reactor -> reactor) (closes : list event) :
  forall r,
  forallb is_close_event closes = true ->
  reactor_after iterate closes r
  = {| stop_flag := stop_flag r;
       closing := closing r ++ close_callbacks closes |}.
Proof.
  induction closes as [|e rest IH]; intros r Hc.
  - cbn. rewrite app_nil_r. destruct r; reflexivity.
  - cbn [forallb] in Hc. apply andb_true_iff in Hc. destruct Hc as [He Hrest].
    change (reactor_after iterate (e :: rest) r)
      with (reactor_after iterate rest (reactor_step iterate r e)).
    rewrite IH by exact Hrest.
    destruct e; try discriminate; cbn; [rewrite <- app_assoc |]; reflexivity.
Qed.

Lemma close_callbacks_length (hs : list uv_handle_t) :
  forallb known_handle hs = true ->
  map fst (close_callbacks (flat_map close_procedure hs)) = map hid hs.
Proof.
  induction hs as [|h rest IH]; intros Hk; [reflexivity |].
  cbn [forallb] in Hk. apply andb_true_iff in Hk. destruct Hk as [Hh Hrest].
  cbn [flat_map]. unfold close_callbacks in *. rewrite omap_app, map_app.
  rewrite IH by exact Hrest. cbn [map]. f_equal.
  unfold known_handle in Hh. unfold close_procedure.
  destruct (htype h); try discriminate; try reflexivity.
  destruct (data h); reflexivity.
Qed.

(** X16.  With a loop that follows libuv's documentation ([uv_close]
    queues the close callback, [uv_stop] sets the stop flag, [uv_run]
    returns at once when the flag is set), the [uv_run] at the end of
    [signal_handler] calls no close callback: [uv_stop] has just set the
    flag, so when the handler returns the callback of every handle it
    closed is still queued, and the flag is cleared.  [close_handlers]
    called with the flag not set, as [siri_start] does when a listener
    fails, does run an iteration with all these callbacks queued; an
    iteration that calls the queued callbacks leaves none. *)
Theorem stopped_loop_calls_no_close_callback (iterate : reactor -> reactor)
    (w : world) (l : uv_loop_t) (signum : Z) (r0 : reactor) :
  loop (siri w) = Some l ->
  forallb known_handle (handles l) = true ->
  let queued := close_callbacks (flat_map close_procedure (handles l)) in
  reactor_after iterate (events (signal_handler signum w)) r0
  = {| stop_flag := false; closing := closing r0 ++ queued |}
  /\ map fst queued = map hid (handles l)
  /\ (stop_flag r0 = false ->
      reactor_after iterate (events (close_handlers w)) r0
      = iterate {| stop_flag := false; closing := closing r0 ++ queued |})
  /\ (stop_flag r0 = false ->
      closing (reactor_after drain (events (close_handlers w)) r0) = []).
Proof.
  intros Hl Hk queued.
  destruct (close_procedure_calls (handles l) Hk) as [Hc _].
  assert (Hclose : events (close_handlers w)
                   = [EvUvWalk] ++ flat_map close_procedure (handles l) ++ [EvUvRun])
    by (rewrite (close_handlers_exact w l Hl Hk); reflexivity).
  assert (Hsig : events (signal_handler signum w)
                 = [EvLog LOG_DEBUG "Asked SiriDB Server to stop (%d)" [ArgD signum];
                    EvOptimizeCancel; EvHeartbeatCancel; EvUvStop; EvUvWalk]
                   ++ flat_map close_procedure (handles l) ++ [EvUvRun]).
  { rewrite (signal_handler_run w l signum Hl), (close_handlers_exact w l Hl Hk).
    reflexivity. }
  assert (Hnotset : forall it, stop_flag r0 = false ->
            reactor_after it (events (close_handlers w)) r0
            = it {| stop_flag := false; closing := closing r0 ++ queued |}).
  { intros it Hflag. rewrite Hclose, !reactor_after_app.
    change (reactor_after it [EvUvWalk] r0) with r0.
    rewrite (reactor_after_closes it _ r0 Hc), Hflag. reflexivity. }
  split.
  { rewrite Hsig, !reactor_after_app.
    change (reactor_after iterate
              [EvLog LOG_DEBUG "Asked SiriDB Server to stop (%d)" [ArgD signum];
               EvOptimizeCancel; EvHeartbeatCancel; EvUvStop; EvUvWalk] r0)
      with {| stop_flag := true; closing := closing r0 |}.
    rewrite (reactor_after_closes iterate _ _ Hc). reflexivity. }
  split; [apply close_callbacks_length; exact Hk |].
  split; [apply Hnotset |].
  intros Hflag. rewrite (Hnotset drain Hflag). reflexivity.
Qed.

Lemma stopped_loop_calls_no_close_callback_witness :
  reactor_after drain (events (signal_handler SIGTERM running_world))
    {| stop_flag := false; closing := [] |}
  = {| stop_flag := false;
       closing := [(0%nat, CB_NULL); (1%nat, CB_NULL); (2%nat, CB_NULL);
                   (3%nat, CB_NULL); (4%nat, CB_sirinet_socket_free);
                   (5%nat, CB_NULL); (6%nat, CB_NULL); (7%nat, CB_free)] |}.
Proof.
  destruct (stopped_loop_calls_no_close_callback drain running_world demo_loop
              SIGTERM {| stop_flag := false; closing := [] |} eq_refl eq_refl)
    as (Hsig & _).
  rewrite Hsig. reflexivity.
Defined.
